(** * Unstructured text to structured JSON: a verification development

    A shallow embedding of [models.py] and [pipeline.py]: the schema
    registry, the two profile models with their validators, the response
    parser, the retrying extraction client and the per-file processor,
    followed by the properties proved about them.

    Conventions of the embedding.
    - A Python [str] is the list of its code points ([str := list N]).
    - Code that may raise returns a [result]: [Ok v] or [Raise e] with [e]
      an exception value of type [exn].
    - What the program takes from its environment (the HTTP endpoint, the
      file system, the SQLite store, the clock) is an explicit argument.
    - Behaviour that belongs to a library and is fixed by tables or by the
      library version (lower-casing outside ASCII, pydantic's lax
      coercions of strings and booleans to numbers) is a section variable:
      every theorem holds for all of its values. *)

From Stdlib Require Import List NArith ZArith QArith Bool String Ascii Lia.
Import ListNotations.

Set Implicit Arguments.
Set Warnings "-register-all".
Local Close Scope Q_scope.
Local Open Scope nat_scope.
Local Open Scope list_scope.
Local Abbreviation length := Datatypes.length.

(* ------------------------------------------------------------------ *)
(** * Strings *)

Definition str := list N.

(** [lit "abc"] is the Python string whose characters are the bytes of the
    literal (all literals below are ASCII). *)
Definition lit (s : string) : str :=
  List.map N_of_ascii (list_ascii_of_string s).

Fixpoint str_eqb (a b : str) : bool :=
  match a, b with
  | [], [] => true
  | x :: a', y :: b' => N.eqb x y && str_eqb a' b'
  | _, _ => false
  end.

(** [s.startswith(p)] *)
Fixpoint startswith (p s : str) : bool :=
  match p, s with
  | [], _ => true
  | x :: p', y :: s' => N.eqb x y && startswith p' s'
  | _ :: _, [] => false
  end.

(** [needle in hay] on strings: some position of [hay] starts with [needle]. *)
Fixpoint contains (needle hay : str) : bool :=
  startswith needle hay ||
  match hay with
  | [] => false
  | _ :: t => contains needle t
  end.

(** The declarative reading of substring occurrence. *)
Definition occurs_in (needle hay : str) : Prop :=
  exists pre post, hay = pre ++ needle ++ post.

(** [str.isspace] of one code point ([Py_UNICODE_ISSPACE]); the same
    predicate decides [\s] in a [re] pattern over [str] and what
    [str.strip()] removes. *)
Definition isspace (c : N) : bool :=
  ((9 <=? c) && (c <=? 13) || (28 <=? c) && (c <=? 32)
   || (c =? 133) || (c =? 160) || (c =? 5760)
   || (8192 <=? c) && (c <=? 8202)
   || (c =? 8232) || (c =? 8233) || (c =? 8239) || (c =? 8287)
   || (c =? 12288))%N.

Fixpoint lstrip_with (f : N -> bool) (s : str) : str :=
  match s with
  | [] => []
  | c :: t => if f c then lstrip_with f t else s
  end.

Definition rstrip_with (f : N -> bool) (s : str) : str :=
  rev (lstrip_with f (rev s)).

(** [s.strip()] *)
Definition strip (s : str) : str := rstrip_with isspace (lstrip_with isspace s).

(** [s[:n]] *)
Definition slice_to (n : nat) (s : str) : str := firstn n s.

(* ------------------------------------------------------------------ *)
(** * Results and exceptions *)

Inductive result (E A : Type) : Type :=
| Ok (a : A)
| Raise (e : E).
Arguments Ok {E A} a.
Arguments Raise {E A} e.

Definition bind {E A B} (r : result E A) (k : A -> result E B) : result E B :=
  match r with
  | Ok a => k a
  | Raise e => Raise e
  end.

Declare Scope result_scope.
Delimit Scope result_scope with result.
Notation "x <- r ;; k" := (bind r (fun x => k))
  (at level 61, r at next level, right associativity) : result_scope.
Notation "' p <- r ;; k" := (bind r (fun x => match x with p => k end))
  (at level 61, p pattern, r at next level, right associativity) : result_scope.

(* ------------------------------------------------------------------ *)
(** * models.py: the schema registry *)

Inductive schema_class : Type :=
| CompanyProfile
| BuyerProfile.

(** [schema_class.__name__] *)
Definition schema_name (c : schema_class) : str :=
  match c with
  | CompanyProfile => lit "CompanyProfile"
  | BuyerProfile => lit "BuyerProfile"
  end.

(** [SCHEMA_REGISTRY]: a dict literal, iterated in insertion order. *)
Definition SCHEMA_REGISTRY : list (str * schema_class) :=
  [ (lit "company", CompanyProfile);
    (lit "buyer", BuyerProfile);
    (lit "pe", BuyerProfile);
    (lit "capital", BuyerProfile);
    (lit "ventures", BuyerProfile) ].

Section Lower.

(** [str.lower] outside ASCII follows the Unicode case tables, and for
    one code point (capital sigma) the neighbouring characters:
    [unicode_lower s i] is what the character at index [i] of [s]
    becomes.  It is consulted for code points from 128 on only. *)
Variable unicode_lower : str -> nat -> str.

Definition ascii_lower (c : N) : N :=
  if ((65 <=? c) && (c <=? 90))%N then (c + 32)%N else c.

Fixpoint lower_from (whole : str) (i : nat) (rest : str) : str :=
  match rest with
  | [] => []
  | c :: t =>
      (if (c <? 128)%N then [ascii_lower c] else unicode_lower whole i)
        ++ lower_from whole (S i) t
  end.

(** [s.lower()] *)
Definition lower (s : str) : str := lower_from s 0 s.

(** The [for keyword, schema in ....items()] loop of [infer_schema], with
    its early [return]. *)
Fixpoint infer_loop (items : list (str * schema_class)) (name_lower : str)
  : schema_class :=
  match items with
  | [] => CompanyProfile
  | (keyword, schema) :: rest =>
      if contains keyword name_lower then schema
      else infer_loop rest name_lower
  end.

Definition infer_schema (filename : str) : schema_class :=
  let name_lower := lower filename in
  infer_loop SCHEMA_REGISTRY name_lower.

End Lower.

(* ------------------------------------------------------------------ *)
(** * Values *)

(** A Python [float].  A finite float is identified with the rational it
    denotes; the rounding of a decimal literal to binary64 is outside the
    model. *)
Inductive pyfloat : Type :=
| FNan
| FInf (negative : bool)
| FFin (q : Q).

(** What [json.loads] returns: [None], [bool], [int], [float], [str],
    [list] and [dict] (keys in insertion order). *)
Inductive json : Type :=
| JNull
| JBool (b : bool)
| JInt (n : Z)
| JFloat (f : pyfloat)
| JStr (s : str)
| JList (items : list json)
| JDict (items : list (str * json)).

Definition dict := list (str * json).

(** [d.get(k)] *)
Fixpoint dict_get (k : str) (d : dict) : option json :=
  match d with
  | [] => None
  | (k', v) :: rest => if str_eqb k k' then Some v else dict_get k rest
  end.

(** [d[k] = v]: an existing key keeps its place, a new one goes last. *)
Fixpoint dict_set (k : str) (v : json) (d : dict) : dict :=
  match d with
  | [] => [(k, v)]
  | (k', v') :: rest =>
      if str_eqb k k' then (k', v) :: rest else (k', v') :: dict_set k v rest
  end.

(** [dict(pairs)] *)
Definition dict_of_pairs (pairs : list (str * json)) : dict :=
  fold_left (fun d kv => dict_set (fst kv) (snd kv) d) pairs [].

Definition dict_keys (d : dict) : list str := List.map fst d.

(* ------------------------------------------------------------------ *)
(** * Exceptions *)

(** Why [json.loads] rejected a document (the message of its
    [JSONDecodeError]). *)
Inductive decode_error : Type :=
| ExpectingValue
| ExpectingPropertyName
| ExpectingColon
| ExpectingComma
| UnterminatedString
| InvalidControlCharacter
| InvalidEscape
| InvalidUnicodeEscape
| ExtraData
| UnexpectedBOM.

(** One entry of a pydantic [ValidationError]: where, and what. *)
Inductive loc_item : Type :=
| LField (name : str)
| LIndex (i : nat).

Inductive error_type : Type :=
| Missing
| StringType
| IntType
| IntParsing
| IntFromFloat
| FloatType
| FloatParsing
| ListType
| DictType
| ValueErrorConfidence (v : pyfloat).
  (** [value_error]: "confidence_score must be between 0 and 1, got {v}" *)

Definition error_detail : Type := (list loc_item * error_type)%type.

Inductive exn : Type :=
| HTTPStatusError (status_code : Z) (text : str)
  (** [response.raise_for_status()] on a response that is not 2xx *)
| RequestError (class_name : str)
  (** httpx's transport failures: [ConnectError], [ConnectTimeout],
      [ReadTimeout], ...; none of them is an [HTTPStatusError] *)
| JSONDecodeError (why : decode_error) (doc : str)
| KeyError (key : json)
| IndexError
| TypeError
| ValueError (template : str) (arg : str)
  (** message: [template] followed by [repr(arg)] *)
| ValidationError (model : schema_class) (errors : list error_detail)
| RuntimeError (attempts : nat) (last_exc : option exn)
  (** message: "Failed after {attempts} attempts. Last error: {last_exc}" *)
| RecursionError
| OSError (class_name : str)
  (** [FileNotFoundError], [PermissionError], ... *)
| UnicodeDecodeError
| SqliteError (class_name : str).
  (** [sqlite3.OperationalError], [sqlite3.IntegrityError], ... *)

(** [type(exc).__name__] *)
Definition exn_type_name (e : exn) : str :=
  match e with
  | HTTPStatusError _ _ => lit "HTTPStatusError"
  | RequestError n => n
  | JSONDecodeError _ _ => lit "JSONDecodeError"
  | KeyError _ => lit "KeyError"
  | IndexError => lit "IndexError"
  | TypeError => lit "TypeError"
  | ValueError _ _ => lit "ValueError"
  | ValidationError _ _ => lit "ValidationError"
  | RuntimeError _ _ => lit "RuntimeError"
  | RecursionError => lit "RecursionError"
  | OSError n => n
  | UnicodeDecodeError => lit "UnicodeDecodeError"
  | SqliteError n => n
  end.

(** [isinstance(e, ValueError)]: [json.JSONDecodeError],
    [pydantic.ValidationError] and [UnicodeDecodeError] are subclasses. *)
Definition is_ValueError (e : exn) : bool :=
  match e with
  | ValueError _ _ | JSONDecodeError _ _ | ValidationError _ _
  | UnicodeDecodeError => true
  | _ => false
  end.

Definition is_KeyError (e : exn) : bool :=
  match e with KeyError _ => true | _ => false end.

Definition is_HTTPStatusError (e : exn) : bool :=
  match e with HTTPStatusError _ _ => true | _ => false end.

Definition res (A : Type) : Type := result exn A.

(* ------------------------------------------------------------------ *)
(** * The [json] module: [json.loads]

    The decoder of the standard library, with its default settings
    (strict strings, [NaN] and [Infinity] accepted).  An error keeps the
    kind of message and the document; the character offset is left out.
    Recursion is by fuel, which plays the part of the interpreter's
    recursion limit; [json_loads] gives as much fuel as the document has
    characters. *)

Definition chr (a : ascii) : N := N_of_ascii a.

(** The double quote. *)
Definition DQUOTE : N := 34%N.

Definition json_ws (c : N) : bool :=
  ((c =? 32) || (c =? 9) || (c =? 10) || (c =? 13))%N.

Definition skip_ws (s : str) : str := lstrip_with json_ws s.

Definition is_digit (c : N) : bool := ((48 <=? c) && (c <=? 57))%N.

Definition hex_digit (c : N) : option N :=
  if is_digit c then Some (c - 48)%N
  else if ((65 <=? c) && (c <=? 70))%N then Some (c - 55)%N
  else if ((97 <=? c) && (c <=? 102))%N then Some (c - 87)%N
  else None.

Definition hex4 (a b c d : N) : option N :=
  match hex_digit a, hex_digit b, hex_digit c, hex_digit d with
  | Some x, Some y, Some z, Some w => Some (((x * 16 + y) * 16 + z) * 16 + w)%N
  | _, _, _, _ => None
  end.

(** The table [BACKSLASH] of one-letter escapes. *)
Definition unescape (esc : N) : option N :=
  if (esc =? DQUOTE)%N then Some (DQUOTE)
  else if (esc =? chr "\")%N then Some (chr "\")
  else if (esc =? chr "/")%N then Some (chr "/")
  else if (esc =? chr "b")%N then Some 8%N
  else if (esc =? chr "f")%N then Some 12%N
  else if (esc =? chr "n")%N then Some 10%N
  else if (esc =? chr "r")%N then Some 13%N
  else if (esc =? chr "t")%N then Some 9%N
  else None.

Definition is_high_surrogate (u : N) : bool := ((55296 <=? u) && (u <=? 56319))%N.
Definition is_low_surrogate (u : N) : bool := ((56320 <=? u) && (u <=? 57343))%N.
Definition join_surrogates (hi lo : N) : N :=
  (65536 + ((hi - 55296) * 1024 + (lo - 56320)))%N.

(** [scanstring]: [s] starts just after the opening quote; the result is
    the decoded string and what follows the closing quote. *)
Fixpoint scanstring (doc s acc : str) {struct s} : res (str * str) :=
  match s with
  | [] => Raise (JSONDecodeError UnterminatedString doc)
  | c :: t =>
      if (c =? DQUOTE)%N then Ok (rev acc, t)
      else if (c <? 32)%N then Raise (JSONDecodeError InvalidControlCharacter doc)
      else if negb (c =? chr "\")%N then scanstring doc t (c :: acc)
      else
        match t with
        | [] => Raise (JSONDecodeError UnterminatedString doc)
        | esc :: t1 =>
            if negb (esc =? chr "u")%N then
              match unescape esc with
              | Some ch => scanstring doc t1 (ch :: acc)
              | None => Raise (JSONDecodeError InvalidEscape doc)
              end
            else
              match t1 with
              | h1 :: h2 :: h3 :: h4 :: t2 =>
                  match hex4 h1 h2 h3 h4 with
                  | None => Raise (JSONDecodeError InvalidUnicodeEscape doc)
                  | Some uni =>
                      if is_high_surrogate uni then
                        match t2 with
                        | b :: u2 :: t3 =>
                            if ((b =? chr "\") && (u2 =? chr "u"))%N then
                              match t3 with
                              | g1 :: g2 :: g3 :: g4 :: t4 =>
                                  match hex4 g1 g2 g3 g4 with
                                  | None =>
                                      Raise (JSONDecodeError InvalidUnicodeEscape doc)
                                  | Some uni2 =>
                                      if is_low_surrogate uni2
                                      then scanstring doc t4
                                             (join_surrogates uni uni2 :: acc)
                                      else scanstring doc t2 (uni :: acc)
                                  end
                              | _ => Raise (JSONDecodeError InvalidUnicodeEscape doc)
                              end
                            else scanstring doc t2 (uni :: acc)
                        | _ => scanstring doc t2 (uni :: acc)
                        end
                      else scanstring doc t2 (uni :: acc)
                  end
              | _ => Raise (JSONDecodeError InvalidUnicodeEscape doc)
              end
        end
  end.

(** The longest prefix of decimal digits, and the rest. *)
Fixpoint take_digits (s : str) : str * str :=
  match s with
  | [] => ([], [])
  | c :: t =>
      if is_digit c then let (ds, r) := take_digits t in (c :: ds, r)
      else ([], s)
  end.

Definition digits_value (ds : str) : Z :=
  fold_left (fun a c => (a * 10 + Z.of_N (c - 48))%Z) ds 0%Z.

(** The value of the decimal [mantissa * 10 ^ exponent]. *)
Definition decimal (mantissa exponent : Z) : Q :=
  if (0 <=? exponent)%Z then inject_Z (mantissa * 10 ^ exponent)
  else Qred (Qmake mantissa (Z.to_pos (10 ^ (- exponent)))).

(** [NUMBER_RE.match]: an optional minus sign, then a single 0 or a
    digit from 1 to 9 followed by digits; optionally a dot and at least one
    digit; optionally e or E, an optional sign and at least one digit.
    The text is read with [int] when there is neither fraction nor
    exponent, with [float] otherwise. *)
Definition match_number (s : str) : option (json * str) :=
  let (negative, s1) :=
    match s with
    | c :: t => if (c =? chr "-")%N then (true, t) else (false, s)
    | [] => (false, s)
    end in
  match s1 with
  | [] => None
  | c :: t =>
      if is_digit c then
        let (int_digits, s2) :=
          if (c =? chr "0")%N then ([c], t) else take_digits s1 in
        let (frac, s3) :=
          match s2 with
          | dot :: t2 =>
              if (dot =? chr ".")%N then
                let (fd, r) := take_digits t2 in
                match fd with
                | [] => (None, s2)
                | _ :: _ => (Some fd, r)
                end
              else (None, s2)
          | [] => (None, s2)
          end in
        let (exp, s4) :=
          match s3 with
          | e :: t3 =>
              if ((e =? chr "e") || (e =? chr "E"))%N then
                let (exp_negative, t4) :=
                  match t3 with
                  | sg :: t' =>
                      if (sg =? chr "-")%N then (true, t')
                      else if (sg =? chr "+")%N then (false, t')
                      else (false, t3)
                  | [] => (false, t3)
                  end in
                let (ed, r) := take_digits t4 in
                match ed with
                | [] => (None, s3)
                | _ :: _ =>
                    (Some (if exp_negative then (- digits_value ed)%Z
                           else digits_value ed), r)
                end
              else (None, s3)
          | [] => (None, s3)
          end in
        let sign := fun z : Z => if negative then (- z)%Z else z in
        match frac, exp with
        | None, None => Some (JInt (sign (digits_value int_digits)), s4)
        | _, _ =>
            let fd := match frac with Some fd => fd | None => [] end in
            let e := match exp with Some e => e | None => 0%Z end in
            Some (JFloat (FFin (decimal (sign (digits_value (int_digits ++ fd)))
                                        (e - Z.of_nat (length fd)))), s4)
        end
      else None
  end.

(** [scan_once], [JSONObject] (its loop over the pairs) and [JSONArray]
    (its loop over the items).  Each returns the value and the text that
    follows it. *)
Fixpoint scan_once (fuel : nat) (doc s : str) {struct fuel} : res (json * str) :=
  match fuel with
  | O => Raise RecursionError
  | S fuel' =>
      match s with
      | [] => Raise (JSONDecodeError ExpectingValue doc)
      | c :: t =>
          if (c =? DQUOTE)%N then
            bind (scanstring doc t []) (fun '(v, r) => Ok (JStr v, r))
          else if (c =? chr "{")%N then
            match skip_ws t with
            | q :: r =>
                if (q =? DQUOTE)%N then object_pairs fuel' doc r []
                else if (q =? chr "}")%N then Ok (JDict [], r)
                else Raise (JSONDecodeError ExpectingPropertyName doc)
            | [] => Raise (JSONDecodeError ExpectingPropertyName doc)
            end
          else if (c =? chr "[")%N then
            match skip_ws t with
            | q :: r =>
                if (q =? chr "]")%N then Ok (JList [], r)
                else array_items fuel' doc (q :: r) []
            | [] => array_items fuel' doc [] []
            end
          else if startswith (lit "null") s then Ok (JNull, skipn 4 s)
          else if startswith (lit "true") s then Ok (JBool true, skipn 4 s)
          else if startswith (lit "false") s then Ok (JBool false, skipn 5 s)
          else
            match match_number s with
            | Some r => Ok r
            | None =>
                if startswith (lit "NaN") s then Ok (JFloat FNan, skipn 3 s)
                else if startswith (lit "Infinity") s
                then Ok (JFloat (FInf false), skipn 8 s)
                else if startswith (lit "-Infinity") s
                then Ok (JFloat (FInf true), skipn 9 s)
                else Raise (JSONDecodeError ExpectingValue doc)
            end
      end
  end

with object_pairs (fuel : nat) (doc s : str) (pairs : list (str * json))
       {struct fuel} : res (json * str) :=
  match fuel with
  | O => Raise RecursionError
  | S fuel' =>
      bind (scanstring doc s []) (fun '(key, r1) =>
      match skip_ws r1 with
      | c :: r2 =>
          if (c =? chr ":")%N then
            bind (scan_once fuel' doc (skip_ws r2)) (fun '(value, r3) =>
            let pairs' := (key, value) :: pairs in
            match skip_ws r3 with
            | c' :: r4 =>
                if (c' =? chr "}")%N
                then Ok (JDict (dict_of_pairs (rev pairs')), r4)
                else if (c' =? chr ",")%N then
                  match skip_ws r4 with
                  | q :: r5 =>
                      if (q =? DQUOTE)%N then object_pairs fuel' doc r5 pairs'
                      else Raise (JSONDecodeError ExpectingPropertyName doc)
                  | [] => Raise (JSONDecodeError ExpectingPropertyName doc)
                  end
                else Raise (JSONDecodeError ExpectingComma doc)
            | [] => Raise (JSONDecodeError ExpectingComma doc)
            end)
          else Raise (JSONDecodeError ExpectingColon doc)
      | [] => Raise (JSONDecodeError ExpectingColon doc)
      end)
  end

with array_items (fuel : nat) (doc s : str) (values : list json)
       {struct fuel} : res (json * str) :=
  match fuel with
  | O => Raise RecursionError
  | S fuel' =>
      bind (scan_once fuel' doc s) (fun '(value, r) =>
      let values' := value :: values in
      match skip_ws r with
      | c :: r1 =>
          if (c =? chr "]")%N then Ok (JList (rev values'), r1)
          else if (c =? chr ",")%N
          then array_items fuel' doc (skip_ws r1) values'
          else Raise (JSONDecodeError ExpectingComma doc)
      | [] => Raise (JSONDecodeError ExpectingComma doc)
      end)
  end.

(** [JSONDecoder.decode] behind [json.loads(s)] for a [str] argument. *)
Definition json_loads (s : str) : res json :=
  if startswith [65279%N] s then Raise (JSONDecodeError UnexpectedBOM s)
  else
    bind (scan_once (S (length s)) s (skip_ws s)) (fun '(obj, r) =>
    match skip_ws r with
    | [] => Ok obj
    | _ :: _ => Raise (JSONDecodeError ExtraData s)
    end).

(* ------------------------------------------------------------------ *)
(** * models.py: the profile models *)

Record company_profile : Type := {
  c_company_name : str;
  c_industry : str;
  c_headquarters : option str;
  c_employee_count : option Z;
  c_revenue_range : option str;
  c_key_products : list str;
  c_description : str;
  c_confidence_score : pyfloat
}.

Record buyer_profile : Type := {
  b_company_name : str;
  b_industry : str;
  b_acquisition_interests : list str;
  b_budget_range : option str;
  b_key_contacts : list dict;
  b_deal_history : list str;
  b_confidence_score : pyfloat
}.

(** An instance of one of the two models. *)
Inductive profile : Type :=
| Company (p : company_profile)
| Buyer (p : buyer_profile).

(** [0.0 <= v <= 1.0]: false for NaN and for the infinities. *)
Definition in_unit_interval (v : pyfloat) : bool :=
  match v with
  | FFin q => Qle_bool 0%Q q && Qle_bool q 1%Q
  | FNan | FInf _ => false
  end.

(** The integer nearest to [q * 10000], a tie going to the even one. *)
Definition round_half_even_scaled (q : Q) : Z :=
  let n := (Qnum q * 10000)%Z in
  let d := Zpos (Qden q) in
  let f := (n / d)%Z in
  let r := (n mod d)%Z in
  match (2 * r ?= d)%Z with
  | Lt => f
  | Gt => (f + 1)%Z
  | Eq => if Z.even f then f else (f + 1)%Z
  end.

(** [round(v, 4)]: NaN and the infinities are returned as they are. *)
Definition round4 (v : pyfloat) : pyfloat :=
  match v with
  | FFin q => FFin (Qred (Qmake (round_half_even_scaled q) 10000))
  | FNan | FInf _ => v
  end.

(** [validate_confidence], the same in both models: the field validator
    raises [ValueError], which pydantic records as a [value_error]. *)
Definition validate_confidence (v : pyfloat) : result error_type pyfloat :=
  if negb (in_unit_interval v) then Raise (ValueErrorConfidence v)
  else Ok (round4 v).

(** The outcome of validating one value: the errors carry their location
    below the value. *)
Definition checked (A : Type) : Type := result (list error_detail) A.

Definition fail_with {A : Type} (t : error_type) : checked A := Raise [([], t)].

Definition of_option {A : Type} (t : error_type) (o : option A) : checked A :=
  match o with
  | Some a => Ok a
  | None => fail_with t
  end.

Definition at_loc {A : Type} (l : loc_item) (r : checked A) : checked A :=
  match r with
  | Ok a => Ok a
  | Raise es => Raise (List.map (fun e => (l :: fst e, snd e)) es)
  end.

(** Validation goes through every field and reports all the errors. *)
Definition ap {A B : Type} (rf : checked (A -> B)) (ra : checked A) : checked B :=
  match rf, ra with
  | Ok f, Ok a => Ok (f a)
  | Ok _, Raise es => Raise es
  | Raise es, Ok _ => Raise es
  | Raise es1, Raise es2 => Raise (es1 ++ es2)
  end.

Declare Scope checked_scope.
Delimit Scope checked_scope with checked.
Notation "rf <*> ra" := (ap rf ra) (at level 50, left associativity) : checked_scope.

Section Pydantic.

(** pydantic's lax mode turns some strings and booleans into numbers;
    which ones depends on its version. *)
Variable str_as_int : str -> option Z.
Variable str_as_float : str -> option pyfloat.
Variable bool_as_int : bool -> option Z.
Variable bool_as_float : bool -> option pyfloat.

(** [str] *)
Definition str_field (v : json) : checked str :=
  match v with
  | JStr s => Ok s
  | _ => fail_with StringType
  end.

(** [int]: a float is taken when it has no fractional part. *)
Definition int_field (v : json) : checked Z :=
  match v with
  | JInt n => Ok n
  | JFloat (FFin q) =>
      if (Zpos (Qden (Qred q)) =? 1)%Z then Ok (Qnum (Qred q))
      else fail_with IntFromFloat
  | JFloat _ => fail_with IntFromFloat
  | JBool b => of_option IntType (bool_as_int b)
  | JStr s => of_option IntParsing (str_as_int s)
  | _ => fail_with IntType
  end.

(** [float] *)
Definition float_field (v : json) : checked pyfloat :=
  match v with
  | JFloat f => Ok f
  | JInt n => Ok (FFin (inject_Z n))
  | JBool b => of_option FloatType (bool_as_float b)
  | JStr s => of_option FloatParsing (str_as_float s)
  | _ => fail_with FloatType
  end.

(** [dict] *)
Definition dict_field (v : json) : checked dict :=
  match v with
  | JDict d => Ok d
  | _ => fail_with DictType
  end.

(** [Optional[T]] *)
Definition optional {A : Type} (f : json -> checked A) (v : json)
  : checked (option A) :=
  match v with
  | JNull => Ok None
  | _ => ap (Ok (@Some A)) (f v)
  end.

Fixpoint list_items {A : Type} (f : json -> checked A) (i : nat)
           (items : list json) : checked (list A) :=
  match items with
  | [] => Ok []
  | x :: rest =>
      (Ok (@cons A) <*> at_loc (LIndex i) (f x)
                    <*> list_items f (S i) rest)%checked
  end.

(** [list[T]] *)
Definition list_of {A : Type} (f : json -> checked A) (v : json)
  : checked (list A) :=
  match v with
  | JList items => list_items f 0 items
  | _ => fail_with ListType
  end.

(** A field validator that runs after the type's own validation. *)
Definition after_validator {A : Type} (f : json -> checked A)
           (g : A -> result error_type A) (v : json) : checked A :=
  match f v with
  | Ok a =>
      match g a with
      | Ok a' => Ok a'
      | Raise t => fail_with t
      end
  | Raise es => Raise es
  end.

(** A field with no default. *)
Definition required {A : Type} (name : str) (f : json -> checked A)
           (data : dict) : checked A :=
  match dict_get name data with
  | Some v => at_loc (LField name) (f v)
  | None => Raise [([LField name], Missing)]
  end.

(** A field with a default, which is used as it is. *)
Definition with_default {A : Type} (name : str) (f : json -> checked A)
           (default : A) (data : dict) : checked A :=
  match dict_get name data with
  | Some v => at_loc (LField name) (f v)
  | None => Ok default
  end.

Definition confidence_field : json -> checked pyfloat :=
  after_validator float_field validate_confidence.

Definition check_CompanyProfile (data : dict) : checked company_profile :=
  (Ok Build_company_profile
    <*> required (lit "company_name") str_field data
    <*> required (lit "industry") str_field data
    <*> with_default (lit "headquarters") (optional str_field) None data
    <*> with_default (lit "employee_count") (optional int_field) None data
    <*> with_default (lit "revenue_range") (optional str_field) None data
    <*> with_default (lit "key_products") (list_of str_field) [] data
    <*> required (lit "description") str_field data
    <*> required (lit "confidence_score") confidence_field data)%checked.

Definition check_BuyerProfile (data : dict) : checked buyer_profile :=
  (Ok Build_buyer_profile
    <*> required (lit "company_name") str_field data
    <*> required (lit "industry") str_field data
    <*> with_default (lit "acquisition_interests") (list_of str_field) [] data
    <*> with_default (lit "budget_range") (optional str_field) None data
    <*> with_default (lit "key_contacts") (list_of dict_field) [] data
    <*> with_default (lit "deal_history") (list_of str_field) [] data
    <*> required (lit "confidence_score") confidence_field data)%checked.

Definition raise_validation {A : Type} (c : schema_class) (r : checked A)
  : res A :=
  match r with
  | Ok a => Ok a
  | Raise es => Raise (ValidationError c es)
  end.

(** [CompanyProfile] called with the entries of [data] as keyword
    arguments. *)
Definition new_CompanyProfile (data : dict) : res company_profile :=
  raise_validation CompanyProfile (check_CompanyProfile data).

(** [BuyerProfile] called with the entries of [data] as keyword
    arguments. *)
Definition new_BuyerProfile (data : dict) : res buyer_profile :=
  raise_validation BuyerProfile (check_BuyerProfile data).

(** [schema_class] called the same way. *)
Definition new_profile (c : schema_class) (data : dict) : res profile :=
  match c with
  | CompanyProfile => bind (new_CompanyProfile data) (fun p => Ok (Company p))
  | BuyerProfile => bind (new_BuyerProfile data) (fun p => Ok (Buyer p))
  end.

End Pydantic.

(** The declared fields of each model, in order ([model_fields]). *)
Definition CompanyProfile_fields : list str :=
  [ lit "company_name"; lit "industry"; lit "headquarters";
    lit "employee_count"; lit "revenue_range"; lit "key_products";
    lit "description"; lit "confidence_score" ].

Definition BuyerProfile_fields : list str :=
  [ lit "company_name"; lit "industry"; lit "acquisition_interests";
    lit "budget_range"; lit "key_contacts"; lit "deal_history";
    lit "confidence_score" ].

Definition model_fields (c : schema_class) : list str :=
  match c with
  | CompanyProfile => CompanyProfile_fields
  | BuyerProfile => BuyerProfile_fields
  end.

Definition dump_optional {A : Type} (f : A -> json) (o : option A) : json :=
  match o with
  | Some a => f a
  | None => JNull
  end.

Definition dump_strs (l : list str) : json := JList (List.map JStr l).

(** [profile.model_dump()]: the declared fields, in order.
    [model_dump_json()] is the JSON text of this value. *)
Definition model_dump (p : profile) : dict :=
  match p with
  | Company c =>
      [ (lit "company_name", JStr (c_company_name c));
        (lit "industry", JStr (c_industry c));
        (lit "headquarters", dump_optional JStr (c_headquarters c));
        (lit "employee_count", dump_optional JInt (c_employee_count c));
        (lit "revenue_range", dump_optional JStr (c_revenue_range c));
        (lit "key_products", dump_strs (c_key_products c));
        (lit "description", JStr (c_description c));
        (lit "confidence_score", JFloat (c_confidence_score c)) ]
  | Buyer b =>
      [ (lit "company_name", JStr (b_company_name b));
        (lit "industry", JStr (b_industry b));
        (lit "acquisition_interests", dump_strs (b_acquisition_interests b));
        (lit "budget_range", dump_optional JStr (b_budget_range b));
        (lit "key_contacts", JList (List.map JDict (b_key_contacts b)));
        (lit "deal_history", dump_strs (b_deal_history b));
        (lit "confidence_score", JFloat (b_confidence_score b)) ]
  end.

Definition profile_company_name (p : profile) : str :=
  match p with
  | Company c => c_company_name c
  | Buyer b => b_company_name b
  end.

Definition profile_industry (p : profile) : str :=
  match p with
  | Company c => c_industry c
  | Buyer b => b_industry b
  end.

Definition profile_confidence_score (p : profile) : pyfloat :=
  match p with
  | Company c => c_confidence_score c
  | Buyer b => b_confidence_score b
  end.

(** [type(profile).__name__] *)
Definition profile_class (p : profile) : schema_class :=
  match p with
  | Company _ => CompanyProfile
  | Buyer _ => BuyerProfile
  end.

(* ------------------------------------------------------------------ *)
(** * pipeline.py: the response parser *)

Definition BACKTICK : N := 96%N.

Definition FENCE : str := [BACKTICK; BACKTICK; BACKTICK].

(** One match of the pattern "three backticks, an optional [json], any
    white space" at the start of [s]: what follows the match. *)
Definition match_fence (s : str) : option str :=
  if startswith FENCE s then
    let after := skipn 3 s in
    let after := if startswith (lit "json") after then skipn 4 after else after in
    Some (lstrip_with isspace after)
  else None.

(** [re.sub(pattern, "", s)]: the matches are found from left to right and
    dropped, everything else is kept.  A step consumes at least one
    character, so [length s] steps are enough. *)
Fixpoint sub_fences (fuel : nat) (s : str) : str :=
  match fuel with
  | O => []
  | S fuel' =>
      match match_fence s with
      | Some rest => sub_fences fuel' rest
      | None =>
          match s with
          | [] => []
          | c :: t => c :: sub_fences fuel' t
          end
      end
  end.

Definition re_sub_fences (raw : str) : str := sub_fences (length raw) raw.

Definition is_backtick (c : N) : bool := (c =? BACKTICK)%N.

(** The cleaning chain of the parser: the substitution, [.strip()],
    [.rstrip] of backticks, [.strip()]. *)
Definition clean (raw : str) : str :=
  strip (rstrip_with is_backtick (strip (re_sub_fences raw))).

(** The suffix of [s] that starts at the first [c]. *)
Fixpoint from_first (c : N) (s : str) : option str :=
  match s with
  | [] => None
  | x :: t => if (x =? c)%N then Some s else from_first c t
  end.

(** The prefix of [s] that ends at the last [c]. *)
Definition upto_last (c : N) (s : str) : option str :=
  match lstrip_with (fun x => negb (x =? c)%N) (rev s) with
  | [] => None
  | r => Some (rev r)
  end.

(** [re.search] of "an opening brace, anything, a closing brace" with
    [re.DOTALL]: the greedy match runs from the first opening brace to the
    last closing brace after it. *)
Definition search_object (cleaned : str) : option str :=
  match from_first (chr "{") cleaned with
  | None => None
  | Some s => upto_last (chr "}") s
  end.

Definition NO_JSON_OBJECT : str := lit "No JSON object found in LLM response: ".

Definition extract_json_from_text (raw : str) : res json :=
  let cleaned := clean raw in
  match search_object cleaned with
  | None => Raise (ValueError NO_JSON_OBJECT (slice_to 200 raw))
  | Some span => json_loads span
  end.

(* ------------------------------------------------------------------ *)
(** * pipeline.py: the extraction client *)

Definition MAX_RETRIES : nat := 2.

Definition MODEL_VERSION : str := lit "databricks-meta-llama-3-3-70b-instruct".

(** What one [client.post] does: it raises one of httpx's transport
    errors (named by its class), or it returns a response, of which the
    status code and the decoded body are kept. *)
Inductive post_result : Type :=
| PostFails (class_name : str)
| Response (status_code : Z) (text : str).

(** What the program prints and does besides computing. *)
Inductive event : Type :=
| LogInfoProcessing (file schema : str)
| LogWarnRetry (retry wait : nat)
| Sleep (seconds : nat)
| Post (attempt : nat)
| LogErrHTTP (status_code : Z) (excerpt : str)
| LogErrParse (e : exn)
| LogOk (company : str) (confidence : pyfloat)
| LogErrFailed (e : exn).

(** [obj[key]] *)
Definition getitem (obj key : json) : res json :=
  match obj, key with
  | JDict d, JStr k =>
      match dict_get k d with
      | Some v => Ok v
      | None => Raise (KeyError key)
      end
  | JDict _, _ => Raise (KeyError key)
  | JList items, JInt i =>
      let n := Z.of_nat (length items) in
      let j := if (i <? 0)%Z then (i + n)%Z else i in
      if ((0 <=? j) && (j <? n))%Z then
        match nth_error items (Z.to_nat j) with
        | Some v => Ok v
        | None => Raise IndexError
        end
      else Raise IndexError
  | JStr s, JInt i =>
      let n := Z.of_nat (length s) in
      let j := if (i <? 0)%Z then (i + n)%Z else i in
      if ((0 <=? j) && (j <? n))%Z then
        match nth_error s (Z.to_nat j) with
        | Some c => Ok (JStr [c])
        | None => Raise IndexError
        end
      else Raise IndexError
  | _, _ => Raise TypeError
  end.

(** [response.is_success] *)
Definition is_success (status_code : Z) : bool :=
  ((200 <=? status_code) && (status_code <=? 299))%Z.

(** The exceptions the two [except] clauses of the retry loop catch:
    [httpx.HTTPStatusError], and
    [(json.JSONDecodeError, KeyError, ValueError)]. *)
Definition caught_by_retry (e : exn) : bool :=
  is_HTTPStatusError e || (is_KeyError e || is_ValueError e).

(** The [if attempt > 1] at the head of an attempt: the warning and the
    wait of [attempt * 2] seconds, from the second attempt on. *)
Definition waited_before (attempt : nat) : list event :=
  if 1 <? attempt
  then [LogWarnRetry (attempt - 1) (attempt * 2); Sleep (attempt * 2)]
  else [].

Section Pipeline.

Variable unicode_lower : str -> nat -> str.
Variable str_as_int : str -> option Z.
Variable str_as_float : str -> option pyfloat.
Variable bool_as_int : bool -> option Z.
Variable bool_as_float : bool -> option pyfloat.

Definition construct : schema_class -> dict -> res profile :=
  new_profile str_as_int str_as_float bool_as_int bool_as_float.

(** The body of the [try] of one attempt, after the optional wait: the
    request, [raise_for_status], [response.json()], the path to the
    completion text, the response parser, the model. *)
Definition attempt_body (schema : schema_class) (r : post_result) : res profile :=
  match r with
  | PostFails class_name => Raise (RequestError class_name)
  | Response status_code text =>
      if negb (is_success status_code)
      then Raise (HTTPStatusError status_code text)
      else
        (data <- json_loads text ;;
         choices <- getitem data (JStr (lit "choices")) ;;
         choice <- getitem choices (JInt 0) ;;
         message <- getitem choice (JStr (lit "message")) ;;
         content <- getitem message (JStr (lit "content")) ;;
         extracted <- match content with
                      | JStr raw => extract_json_from_text raw
                      | _ => Raise TypeError
                      end ;;
         match extracted with
         | JDict d => construct schema d
         | _ => Raise TypeError
         end)%result
  end.

(** The [for attempt in range(...)] loop of [extract_to_json] and the
    [raise RuntimeError] after it.  The prompt, the text and the token are
    fixed before the loop, so every attempt sends the same request:
    [endpoint k] is what the [k]-th request of this call meets. *)
Fixpoint retry_loop (endpoint : nat -> post_result) (schema : schema_class)
           (attempts : list nat) (last_exc : option exn)
  : list event * res profile :=
  match attempts with
  | [] => ([], Raise (RuntimeError (MAX_RETRIES + 1) last_exc))
  | attempt :: later =>
      let waited := waited_before attempt in
      match attempt_body schema (endpoint attempt) with
      | Ok p => (waited ++ [Post attempt], Ok p)
      | Raise exc =>
          match exc with
          | HTTPStatusError code text =>
              let (evs, r) := retry_loop endpoint schema later (Some exc) in
              (waited ++ Post attempt :: LogErrHTTP code (slice_to 200 text) :: evs, r)
          | _ =>
              if is_KeyError exc || is_ValueError exc then
                let (evs, r) := retry_loop endpoint schema later (Some exc) in
                (waited ++ Post attempt :: LogErrParse exc :: evs, r)
              else (waited ++ [Post attempt], Raise exc)
          end
      end
  end.

Definition extract_to_json (endpoint : nat -> post_result)
           (schema_class : schema_class) : list event * res profile :=
  retry_loop endpoint schema_class (seq 1 (MAX_RETRIES + 1)) None.

(* ---------------------------------------------------------------- *)
(** * pipeline.py: storage and the per-file processor *)

Record row : Type := {
  source_file : str;
  schema_type : str;
  company_name : str;
  industry : str;
  extracted_json : dict;
  confidence_score : pyfloat;
  model_version : str;
  extracted_at : str
}.

(** A path: its text ([str(filepath)]) and its last component
    ([filepath.name]). *)
Record path : Type := {
  path_str : str;
  path_name : str
}.

(** What processing one file meets in its environment: the outcome of
    reading the file, the endpoint, whether the INSERT fails and how,
    and the clock. *)
Record file_env : Type := {
  read_text : res str;
  endpoint : nat -> post_result;
  insert_error : option exn;
  utc_now : str
}.

(** [store_result]: one row is appended, or the write raises and the
    table is as before. *)
Definition store_result (env : file_env) (p : profile) (source : str)
           (db : list row) : res (list row) :=
  match insert_error env with
  | Some e => Raise e
  | None =>
      Ok (db ++ [ {| source_file := source;
                     schema_type := schema_name (profile_class p);
                     company_name := profile_company_name p;
                     industry := profile_industry p;
                     extracted_json := model_dump p;
                     confidence_score := profile_confidence_score p;
                     model_version := MODEL_VERSION;
                     extracted_at := utc_now env |} ])
  end.

(** The result summary dict. *)
Record summary : Type := {
  s_file : str;
  s_company : str;
  s_schema : str;
  s_confidence : pyfloat;
  s_status : str
}.

(** The two status prefixes: a check mark and a cross, each followed by
    a space. *)
Definition STATUS_OK : str := [9989%N; 32%N] ++ lit "OK".
Definition STATUS_FAILED (exc : exn) : str :=
  [10060%N; 32%N] ++ exn_type_name exc.

(** The placeholder company of a failure: an em dash. *)
Definition NO_COMPANY : str := [8212%N].

Definition failure_summary (filepath : path) (schema_class : schema_class)
           (exc : exn) : summary :=
  {| s_file := path_name filepath;
     s_company := NO_COMPANY;
     s_schema := schema_name schema_class;
     s_confidence := FFin 0%Q;
     s_status := STATUS_FAILED exc |}.

(** [process_file]: the events, the table afterwards, and the summary
    returned or the exception that leaves the function. *)
Definition process_file (env : file_env) (filepath : path)
           (schema_class : schema_class) (db : list row)
  : list event * list row * res summary :=
  let started := [LogInfoProcessing (path_name filepath) (schema_name schema_class)] in
  match read_text env with
  | Raise exc => (started, db, Raise exc)
  | Ok raw_text =>
      let (evs, extracted) := extract_to_json (endpoint env) schema_class in
      match extracted with
      | Raise exc =>
          (started ++ evs ++ [LogErrFailed exc], db,
           Ok (failure_summary filepath schema_class exc))
      | Ok profile =>
          match store_result env profile (path_str filepath) db with
          | Raise exc =>
              (started ++ evs ++ [LogErrFailed exc], db,
               Ok (failure_summary filepath schema_class exc))
          | Ok db' =>
              (started ++ evs
                 ++ [LogOk (profile_company_name profile)
                           (profile_confidence_score profile)],
               db',
               Ok {| s_file := path_name filepath;
                     s_company := profile_company_name profile;
                     s_schema := schema_name schema_class;
                     s_confidence := profile_confidence_score profile;
                     s_status := STATUS_OK |})
          end
      end
  end.

(** The loop of [main] over the files: a file's schema comes from its
    name; an exception that leaves [process_file] ends the run. *)
Fixpoint process_all (files : list (path * file_env)) (db : list row)
           (results : list summary)
  : list event * list row * res (list summary) :=
  match files with
  | [] => ([], db, Ok results)
  | (filepath, env) :: rest =>
      let schema_class := infer_schema unicode_lower (path_name filepath) in
      match process_file env filepath schema_class db with
      | (evs, db', Raise exc) => (evs, db', Raise exc)
      | (evs, db', Ok result) =>
          let '(evs', db'', r) := process_all rest db' (results ++ [result]) in
          (evs ++ evs', db'', r)
      end
  end.

End Pipeline.

(* ------------------------------------------------------------------ *)
(** * Notions used by the statements *)

(** A response that consists of [j] inside a Markdown code fence, with or
    without the language tag. *)
Definition fenced (tagged : bool) (j : str) : str :=
  FENCE ++ (if tagged then lit "json" else []) ++ [10%N] ++ j ++ [10%N] ++ FENCE.

(** [v] lies in the closed interval from 0 to 1. *)
Definition inside_unit_interval (v : pyfloat) : Prop :=
  match v with
  | FFin q => (0 <= q /\ q <= 1)%Q
  | FNan | FInf _ => False
  end.

(** [r] is [v] rounded to 4 decimal places: a whole number of
    ten-thousandths, at most half a ten-thousandth away from [v]. *)
Definition rounded_to_4_places (v r : pyfloat) : Prop :=
  match v, r with
  | FFin q, FFin q' =>
      exists n : Z,
        (q' == Qmake n 10000
         /\ q' - Qmake 1 20000 <= q /\ q <= q' + Qmake 1 20000)%Q
  | _, _ => False
  end.

(** What [json.loads] raises on a document: its [JSONDecodeError], which
    holds the whole document, or [RecursionError]. *)
Definition decoder_error (doc : str) (e : exn) : Prop :=
  e = RecursionError \/ exists why, e = JSONDecodeError why doc.


(** [d.update(extras)] *)
Definition dict_update (d extras : dict) : dict :=
  fold_left (fun d kv => dict_set (fst kv) (snd kv) d) extras d.

(** How many requests a run of the client made. *)
Definition requests_made (evs : list event) : nat :=
  length (filter (fun e => match e with Post _ => true | _ => false end) evs).

(** pydantic with no lax coercion of strings and booleans, and a
    lower-casing that leaves code points outside ASCII as they are: the
    instances at which the examples are evaluated. *)
Definition no_int {A : Type} (_ : A) : option Z := None.
Definition no_float {A : Type} (_ : A) : option pyfloat := None.
Definition keep_case (s : str) (i : nat) : str :=
  match nth_error s i with
  | Some c => [c]
  | None => []
  end.

(** Data for the examples: the company of the end-to-end scenario, and a
    buyer whose contact has a number among its values. *)
Definition acme_data : dict :=
  [ (lit "company_name", JStr (lit "Acme Corp"));
    (lit "industry", JStr (lit "Technology"));
    (lit "headquarters", JStr (lit "San Francisco, CA"));
    (lit "employee_count", JInt 1200);
    (lit "revenue_range", JNull);
    (lit "key_products", JList []);
    (lit "description", JStr (lit "..."));
    (lit "confidence_score", JFloat (FFin (Qmake 92 100))) ].

Definition acme_profile : company_profile :=
  {| c_company_name := lit "Acme Corp";
     c_industry := lit "Technology";
     c_headquarters := Some (lit "San Francisco, CA");
     c_employee_count := Some 1200%Z;
     c_revenue_range := None;
     c_key_products := [];
     c_description := lit "...";
     c_confidence_score := FFin (Qmake 23 25) |}.

Definition initech_contact : dict :=
  [ (lit "name", JStr (lit "Bill Lumbergh")); (lit "age", JInt 52) ].

Definition initech_data : dict :=
  [ (lit "company_name", JStr (lit "Initech Capital"));
    (lit "industry", JStr (lit "Private Equity"));
    (lit "key_contacts", JList [JDict initech_contact]);
    (lit "confidence_score", JFloat (FFin (Qmake 87 100))) ].

Definition initech_profile : buyer_profile :=
  {| b_company_name := lit "Initech Capital";
     b_industry := lit "Private Equity";
     b_acquisition_interests := [];
     b_budget_range := None;
     b_key_contacts := [initech_contact];
     b_deal_history := [];
     b_confidence_score := FFin (Qmake 87 100) |}.

(** A JSON text written with apostrophes in place of the double quotes. *)
Definition jlit (s : string) : str :=
  List.map (fun c => if (c =? 39)%N then DQUOTE else c) (lit s).

(** A completion whose message content is the JSON text of the Acme
    profile. *)
Definition acme_response : str :=
  jlit "{'choices':[{'message':{'content':'{\'company_name\':\'Acme Corp\',\'industry\':\'Technology\',\'headquarters\':\'San Francisco, CA\',\'employee_count\':1200,\'revenue_range\':null,\'key_products\':[],\'description\':\'...\',\'confidence_score\':0.92}'}}]}".

(** An endpoint whose first request times out and whose later requests
    are answered with the Acme completion. *)
Definition times_out_once (k : nat) : post_result :=
  if k =? 1 then PostFails (lit "ConnectTimeout") else Response 200 acme_response.

(** An endpoint that answers 503 first, then lets the read time out, then
    answers with the Acme completion. *)
Definition busy_then_timeout (k : nat) : post_result :=
  if k =? 1 then Response 503 (lit "busy")
  else if k =? 2 then PostFails (lit "ReadTimeout")
  else Response 200 acme_response.

Definition acme_path : path :=
  {| path_str := lit "examples/sample_texts/acme_company.txt";
     path_name := lit "acme_company.txt" |}.

Definition report_path : path :=
  {| path_str := lit "examples/sample_texts/report.txt";
     path_name := lit "report.txt" |}.

(** A file that is read and extracted well, for which the INSERT fails. *)
Definition acme_store_down : file_env :=
  {| read_text := Ok (lit "Acme Corp is a San Francisco SaaS company with 1200 employees...");
     endpoint := fun _ => Response 200 acme_response;
     insert_error := Some (SqliteError (lit "OperationalError"));
     utc_now := lit "2024-01-01T00:00:00+00:00" |}.

(** A file that is not valid UTF-8, and a file for which all goes well. *)
Definition not_utf8 : file_env :=
  {| read_text := Raise UnicodeDecodeError;
     endpoint := fun _ => Response 200 acme_response;
     insert_error := None;
     utc_now := lit "2024-01-01T00:00:00+00:00" |}.

Definition acme_all_well : file_env :=
  {| read_text := Ok (lit "Acme Corp is a San Francisco SaaS company with 1200 employees...");
     endpoint := fun _ => Response 200 acme_response;
     insert_error := None;
     utc_now := lit "2024-01-01T00:00:00+00:00" |}.

(* ------------------------------------------------------------------ *)
(** * models.py: what the class bodies declare *)

(** [field_info.is_required()]: the fields declared with no default. *)
Definition field_is_required (cls : schema_class) (name : str) : bool :=
  match cls with
  | CompanyProfile =>
      existsb (str_eqb name)
        [ lit "company_name"; lit "industry"; lit "description";
          lit "confidence_score" ]
  | BuyerProfile =>
      existsb (str_eqb name)
        [ lit "company_name"; lit "industry"; lit "confidence_score" ]
  end.

(** The fields annotated [Optional[...]], all with default [None]. *)
Definition optional_fields (cls : schema_class) : list str :=
  match cls with
  | CompanyProfile =>
      [ lit "headquarters"; lit "employee_count"; lit "revenue_range" ]
  | BuyerProfile => [ lit "budget_range" ]
  end.

(** The fields annotated [list[...]], all with default [[]]. *)
Definition list_fields (cls : schema_class) : list str :=
  match cls with
  | CompanyProfile => [ lit "key_products" ]
  | BuyerProfile =>
      [ lit "acquisition_interests"; lit "key_contacts"; lit "deal_history" ]
  end.

(** The errors of a validation outcome. *)
Definition errors_of {A : Type} (r : checked A) : list error_detail :=
  match r with
  | Ok _ => []
  | Raise es => es
  end.

(** Every code point of the string is ASCII. *)
Definition is_ascii (s : str) : bool := forallb (fun c => (c <? 128)%N) s.

Section ValidationNotions.

Variable str_as_int : str -> option Z.
Variable str_as_float : str -> option pyfloat.
Variable bool_as_int : bool -> option Z.
Variable bool_as_float : bool -> option pyfloat.

(** All the errors of validating [data] against a class. *)
Definition validation_errors (cls : schema_class) (data : dict)
  : list error_detail :=
  match cls with
  | CompanyProfile =>
      errors_of (check_CompanyProfile str_as_int str_as_float bool_as_int
                   bool_as_float data)
  | BuyerProfile => errors_of (check_BuyerProfile str_as_float bool_as_float data)
  end.

End ValidationNotions.

(** The field an error is located at. *)
Definition error_field (e : error_detail) : option str :=
  match fst e with
  | LField k :: _ => Some k
  | _ => None
  end.

(* ------------------------------------------------------------------ *)
(** * pipeline.py: the system prompt *)

(** [sep.join(parts)] *)
Fixpoint join (sep : str) (parts : list str) : str :=
  match parts with
  | [] => []
  | [x] => x
  | x :: rest => x ++ sep ++ join sep rest
  end.

Definition REQUIRED_MARK : str := lit "required".
Definition OPTIONAL_MARK : str := lit "optional, use null if unknown".

Section Prompt.

(** [str(field_info.annotation).replace("typing.", "")]: how Python
    prints the annotation of a field, which depends on its version. *)
Variable annotation_text : schema_class -> str -> str.

(** One entry of [field_lines]. *)
Definition field_line (cls : schema_class) (name : str) : str :=
  lit "  - " ++ [DQUOTE] ++ name ++ [DQUOTE] ++ lit ": "
    ++ annotation_text cls name ++ lit " ("
    ++ (if field_is_required cls name then REQUIRED_MARK else OPTIONAL_MARK)
    ++ lit ")".

Definition build_system_prompt (schema_class : schema_class) : str :=
  let field_lines := List.map (field_line schema_class) (model_fields schema_class) in
  let fields_str := join [10%N] field_lines in
  lit "You are a precise data extraction assistant. "
    ++ lit "Read unstructured text and extract structured information."
    ++ [10%N; 10%N]
    ++ lit "Return ONLY a valid JSON object with these fields:" ++ [10%N]
    ++ fields_str ++ [10%N; 10%N]
    ++ lit "RULES:" ++ [10%N]
    ++ lit "1. Return ONLY the JSON object " ++ [8212%N]
    ++ lit " no markdown, no code fences, no explanations, no schema." ++ [10%N]
    ++ lit "2. Fill every field with actual extracted data from the text."
    ++ [10%N]
    ++ lit "3. For fields you cannot determine, use null (for optional) or [] (for lists)."
    ++ [10%N]
    ++ lit "4. confidence_score: float 0.0-1.0 based on extraction certainty."
    ++ [10%N]
    ++ lit "5. key_products / key_contacts / deal_history: extract as lists from the text."
    ++ [10%N]
    ++ lit "6. Do NOT return the schema definition " ++ [8212%N]
    ++ lit " return the EXTRACTED DATA." ++ [10%N]
    ++ lit "7. Do NOT invent or hallucinate data.".

End Prompt.

(** No character of the string is [c]. *)
Definition lacks (c : N) (s : str) : bool :=
  forallb (fun x => negb (x =? c)%N) s.

(** The seconds a run of the client slept, wait by wait. *)
Definition sleeps (evs : list event) : list nat :=
  flat_map (fun e => match e with Sleep s => [s] | _ => [] end) evs.

(** An endpoint that answers 503 once and then with the Acme completion. *)
Definition busy_once (k : nat) : post_result :=
  if k =? 1 then Response 503 (lit "busy") else Response 200 acme_response.

(** [isinstance(e, EnvironmentError)]; [EnvironmentError] is [OSError]. *)
Definition is_OSError (e : exn) : bool :=
  match e with
  | OSError _ => true
  | _ => false
  end.

(** The test of the summary of [main]: the letters OK in the status. *)
Definition counts_as_success (r : summary) : bool :=
  contains (lit "OK") (s_status r).

(** The status is the success status. *)
Definition has_status_ok (r : summary) : bool := str_eqb (s_status r) STATUS_OK.

(** What a run of [main] meets: whether [load_dotenv] raises, the value
    of the token variable after it, whether sqlite fails in [init_db], and
    the text files of the sample directory in sorted order, each with what
    its processing meets. *)
Record run_env : Type := {
  dotenv_error : option exn;
  token : option str;
  init_error : option exn;
  txt_files : list (path * file_env)
}.

(** How a run of [main] ends: [SystemExit] with a code, an exception that
    nothing catches, or the end of the function, with the summaries and
    the count of the total line. *)
Inductive run_outcome : Type :=
| SystemExit (code : Z)
| Escapes (e : exn)
| Completes (results : list summary) (success : nat).

(** [load_config]: the token, which must be set and not empty. *)
Definition load_config (env : run_env) : res str :=
  match dotenv_error env with
  | Some e => Raise e
  | None =>
      match token env with
      | None | Some [] => Raise (OSError (lit "OSError"))
      | Some t => Ok t
      end
  end.

(** [init_db]: the table is created when it does not exist, and left as
    it is when it does; [None] is a database without the table. *)
Definition init_db (env : run_env) (db : option (list row)) : res (list row) :=
  match init_error env with
  | Some e => Raise e
  | None =>
      Ok (match db with
          | Some rows => rows
          | None => []
          end)
  end.

Section Run.

Variable unicode_lower : str -> nat -> str.
Variable str_as_int : str -> option Z.
Variable str_as_float : str -> option pyfloat.
Variable bool_as_int : bool -> option Z.
Variable bool_as_float : bool -> option pyfloat.

(** A stored row from which the profile is retrieved: its JSON column
    validates, against the class its type column names, to a profile whose
    name, industry and confidence are those of the row's columns; the
    confidence lies in the unit interval and the model version is the
    constant of the pipeline. *)
Definition row_consistent (r : row) : Prop :=
  exists p,
    schema_type r = schema_name (profile_class p)
    /\ new_profile str_as_int str_as_float bool_as_int bool_as_float
         (profile_class p) (extracted_json r) = Ok p
    /\ company_name r = profile_company_name p
    /\ industry r = profile_industry p
    /\ confidence_score r = profile_confidence_score p
    /\ inside_unit_interval (confidence_score r)
    /\ model_version r = MODEL_VERSION.

(** [main], without the printing of the banner and of the summary table:
    the events of the files processed, the database afterwards, and how
    the run ends. *)
Definition main (env : run_env) (db : option (list row))
  : list event * option (list row) * run_outcome :=
  match load_config env with
  | Raise exc =>
      if is_OSError exc then ([], db, SystemExit 1) else ([], db, Escapes exc)
  | Ok config =>
      match init_db env db with
      | Raise exc => ([], db, Escapes exc)
      | Ok table =>
          match txt_files env with
          | [] => ([], Some table, SystemExit 0)
          | files =>
              let '(evs, table', r) :=
                process_all unicode_lower str_as_int str_as_float bool_as_int
                  bool_as_float files table [] in
              match r with
              | Raise exc => (evs, Some table', Escapes exc)
              | Ok results =>
                  (evs, Some table',
                   Completes results (length (filter counts_as_success results)))
              end
          end
      end
  end.

End Run.

(** None of the class names that the environment of a file supplies, for
    a transport error or for the error of the INSERT, holds the letters
    OK. *)
Definition names_lack_OK (env : file_env) : Prop :=
  (forall a n, endpoint env a = PostFails n -> contains (lit "OK") n = false)
  /\ (forall e, insert_error env = Some e ->
                contains (lit "OK") (exn_type_name e) = false).

(** A run over two files: the first goes well, the INSERT of the second
    fails. *)
Definition two_files_run : run_env :=
  {| dotenv_error := None;
     token := Some (lit "dapi-0000");
     init_error := None;
     txt_files := [(acme_path, acme_all_well); (report_path, acme_store_down)] |}.

(* ================================================================== *)
(** * Properties *)

(* ------------------------------------------------------------------ *)
(** ** Strings *)

Lemma str_eqb_eq (a b : str) : str_eqb a b = true <-> a = b.
Proof.
  revert b; induction a as [|x a IH]; intros [|y b]; simpl; split;
    try congruence; try discriminate.
  - intros H. apply andb_true_iff in H as [H1 H2].
    apply N.eqb_eq in H1. apply IH in H2. congruence.
  - intros H. injection H as -> ->.
    apply andb_true_iff. split; [apply N.eqb_refl | now apply IH].
Qed.

Lemma str_eqb_refl (a : str) : str_eqb a a = true.
Proof. now apply str_eqb_eq. Qed.

Lemma str_eqb_neq (a b : str) : str_eqb a b = false <-> a <> b.
Proof.
  split.
  - intros H E. apply str_eqb_eq in E. congruence.
  - intros H. destruct (str_eqb a b) eqn:E; [|reflexivity].
    apply str_eqb_eq in E. contradiction.
Qed.

Lemma str_eqb_sym (a b : str) : str_eqb a b = str_eqb b a.
Proof.
  destruct (str_eqb a b) eqn:E.
  - apply str_eqb_eq in E. subst. symmetry. apply str_eqb_refl.
  - symmetry. apply str_eqb_neq. apply str_eqb_neq in E. congruence.
Qed.

Lemma startswith_spec (p s : str) :
  startswith p s = true <-> exists post, s = p ++ post.
Proof.
  revert s; induction p as [|x p IH]; intros s; simpl.
  - split; [exists s; reflexivity | reflexivity].
  - destruct s as [|y s].
    + split; [discriminate | intros [post H]; discriminate].
    + rewrite andb_true_iff, N.eqb_eq, IH. split.
      * intros [-> [post ->]]. now exists post.
      * intros [post H]. injection H as -> ->. split; [reflexivity | now exists post].
Qed.


(* ------------------------------------------------------------------ *)
(** ** The schema registry *)



(* ------------------------------------------------------------------ *)
(** ** The response parser: cleaning *)

Lemma lstrip_with_app (f : N -> bool) (a b : str) :
  lstrip_with f (a ++ b)
  = if forallb f a then lstrip_with f b else lstrip_with f a ++ b.
Proof.
  induction a as [|c a IH]; simpl; [reflexivity|].
  destruct (f c); simpl; [exact IH | reflexivity].
Qed.

Lemma lstrip_with_length (f : N -> bool) (s : str) :
  length (lstrip_with f s) <= length s.
Proof.
  induction s as [|c s IH]; simpl; [lia|]. destruct (f c); simpl; lia.
Qed.

Lemma lstrip_with_all (f : N -> bool) (s : str) :
  forallb f s = true -> lstrip_with f s = [].
Proof.
  induction s as [|c s IH]; simpl; [reflexivity|].
  destruct (f c); simpl; [exact IH | discriminate].
Qed.

Lemma rstrip_with_snoc (f : N -> bool) (s : str) (c : N) :
  f c = true -> rstrip_with f (s ++ [c]) = rstrip_with f s.
Proof.
  intros H. unfold rstrip_with. rewrite rev_app_distr. simpl. now rewrite H.
Qed.

Lemma strip_snoc_space (s : str) (c : N) :
  isspace c = true -> strip (s ++ [c]) = strip s.
Proof.
  intros H. unfold strip. rewrite lstrip_with_app.
  destruct (forallb isspace s) eqn:E.
  - simpl. rewrite H. now rewrite (lstrip_with_all _ _ E).
  - now apply rstrip_with_snoc.
Qed.

(** A character that does not occur in [p] cannot complete a match of
    [p]. *)
Lemma startswith_app_other (p a t : str) (c : N) :
  forallb (fun x => negb (x =? c)%N) p = true ->
  p <> [] ->
  startswith p (a ++ c :: t) = startswith p a.
Proof.
  revert a; induction p as [|x p IH]; intros a Hp Hne; [contradiction|].
  simpl in Hp. apply andb_true_iff in Hp as [Hx Hp].
  destruct a as [|y a]; simpl.
  - apply negb_true_iff in Hx. now rewrite Hx.
  - destruct p as [|x' p'].
    + destruct (x =? y)%N; reflexivity.
    + rewrite IH; [reflexivity | exact Hp | discriminate].
Qed.

Lemma match_fence_shorter (s rest : str) :
  match_fence s = Some rest -> length rest < length s.
Proof.
  unfold match_fence. destruct (startswith FENCE s) eqn:E; [|discriminate].
  apply startswith_spec in E as [post ->].
  change (skipn 3 (FENCE ++ post)) with post.
  change (length (FENCE ++ post)) with (3 + length post).
  assert (L : length (if startswith (lit "json") post then skipn 4 post else post)
              <= length post).
  { destruct (startswith (lit "json") post); [rewrite length_skipn|]; lia. }
  set (x := if startswith (lit "json") post then skipn 4 post else post) in *.
  intros H. assert (R : rest = lstrip_with isspace x) by congruence.
  rewrite R. pose proof (lstrip_with_length isspace x). lia.
Qed.

(** With enough of it, the amount of fuel does not matter. *)
Lemma sub_fences_enough (n m : nat) (s : str) :
  length s <= n -> length s <= m -> sub_fences n s = sub_fences m s.
Proof.
  revert m s; induction n as [|n IH]; intros m s Hn Hm.
  - destruct s; [|simpl in Hn; lia]. destruct m; reflexivity.
  - destruct m as [|m].
    + destruct s; [reflexivity | simpl in Hm; lia].
    + simpl. destruct (match_fence s) as [rest|] eqn:E.
      * apply match_fence_shorter in E. apply IH; lia.
      * destruct s as [|c t]; [reflexivity|]. simpl in Hn, Hm.
        f_equal. apply IH; lia.
Qed.

(** The substitution, one step at a time. *)
Lemma re_sub_fences_step (s : str) :
  re_sub_fences s
  = match match_fence s with
    | Some rest => re_sub_fences rest
    | None =>
        match s with
        | [] => []
        | c :: t => c :: re_sub_fences t
        end
    end.
Proof.
  unfold re_sub_fences. destruct s as [|c t]; [reflexivity|].
  cbn [length sub_fences].
  destruct (match_fence (c :: t)) as [rest|] eqn:E.
  - apply match_fence_shorter in E. simpl in E. apply sub_fences_enough; lia.
  - reflexivity.
Qed.

Lemma match_fence_space (c : N) (t : str) :
  isspace c = true -> match_fence (c :: t) = None.
Proof.
  intros H. unfold match_fence.
  assert (E : startswith FENCE (c :: t) = false).
  { unfold FENCE. cbn [startswith].
    destruct (BACKTICK =? c)%N eqn:E; [|reflexivity].
    apply N.eqb_eq in E. subst c. discriminate H. }
  now rewrite E.
Qed.

(** White space in front of the text is copied by the substitution. *)
Lemma lstrip_re_sub_fences (s : str) :
  lstrip_with isspace (re_sub_fences s)
  = lstrip_with isspace (re_sub_fences (lstrip_with isspace s)).
Proof.
  induction s as [|c t IH]; [reflexivity|]. simpl.
  destruct (isspace c) eqn:E; [|reflexivity].
  rewrite re_sub_fences_step, (@match_fence_space c t E).
  cbn [lstrip_with]. now rewrite E.
Qed.

(** The closing fence on a line of its own leaves at most the line break. *)
Lemma re_sub_fences_closing (s : str) :
  re_sub_fences (s ++ 10%N :: FENCE) = re_sub_fences s
  \/ re_sub_fences (s ++ 10%N :: FENCE) = re_sub_fences s ++ [10%N].
Proof.
  remember (length s) as n eqn:Hn.
  revert s Hn; induction n as [n IH] using lt_wf_ind; intros s Hn.
  rewrite (re_sub_fences_step (s ++ _)), (re_sub_fences_step s).
  unfold match_fence.
  rewrite (@startswith_app_other FENCE s FENCE 10%N) by (reflexivity || discriminate).
  destruct (startswith FENCE s) eqn:E.
  - apply startswith_spec in E as [post ->].
    change (skipn 3 ((FENCE ++ post) ++ 10%N :: FENCE)) with (post ++ 10%N :: FENCE).
    change (skipn 3 (FENCE ++ post)) with post.
    rewrite (@startswith_app_other (lit "json") post FENCE 10%N)
      by (reflexivity || discriminate).
    set (x := if startswith (lit "json") post then skipn 4 post else post).
    assert (Hx : (if startswith (lit "json") post
                  then skipn 4 (post ++ 10%N :: FENCE)
                  else post ++ 10%N :: FENCE) = x ++ 10%N :: FENCE).
    { subst x. destruct (startswith (lit "json") post) eqn:J; [|reflexivity].
      apply startswith_spec in J as [post' ->]. reflexivity. }
    rewrite Hx, lstrip_with_app.
    assert (Lx : length x <= length post).
    { subst x. destruct (startswith (lit "json") post); [|lia].
      rewrite length_skipn. lia. }
    destruct (forallb isspace x) eqn:A.
    + left. rewrite (lstrip_with_all _ _ A). reflexivity.
    + apply (IH (length (lstrip_with isspace x))); [|reflexivity].
      pose proof (lstrip_with_length isspace x). subst n. simpl. lia.
  - destruct s as [|c t].
    + right. reflexivity.
    + simpl app. cbv iota.
      destruct (IH (length t)) with (s := t) as [H | H];
        [subst n; simpl; lia | reflexivity | | ].
      * left. now rewrite H.
      * right. now rewrite H.
Qed.

(** The opening fence, its tag and the line break are one match, which
    also takes the white space that follows. *)
Lemma re_sub_fences_opening (tagged : bool) (s : str) :
  re_sub_fences (FENCE ++ (if tagged then lit "json" else []) ++ 10%N :: s)
  = re_sub_fences (lstrip_with isspace s).
Proof.
  rewrite re_sub_fences_step. destruct tagged; reflexivity.
Qed.

Lemma strip_all_space (s : str) : forallb isspace s = true -> strip s = [].
Proof.
  intros H. unfold strip. now rewrite (lstrip_with_all _ _ H).
Qed.

Lemma re_sub_fences_all_space (s : str) :
  forallb isspace s = true -> re_sub_fences s = s.
Proof.
  induction s as [|c t IH]; [reflexivity|]. simpl.
  intros H. apply andb_true_iff in H as [Hc Ht].
  rewrite re_sub_fences_step, (@match_fence_space c t Hc). now rewrite IH.
Qed.

Lemma strip_re_sub_fences_fenced (tagged : bool) (j : str) :
  strip (re_sub_fences (fenced tagged j)) = strip (re_sub_fences j).
Proof.
  unfold fenced. simpl app at 3.
  change (j ++ [10%N] ++ FENCE) with (j ++ 10%N :: FENCE).
  change ([10%N] ++ j ++ 10%N :: FENCE) with (10%N :: j ++ 10%N :: FENCE).
  rewrite re_sub_fences_opening, lstrip_with_app.
  destruct (forallb isspace j) eqn:A.
  - rewrite (re_sub_fences_all_space _ A), (strip_all_space _ A). reflexivity.
  - transitivity (strip (re_sub_fences (lstrip_with isspace j))).
    + destruct (re_sub_fences_closing (lstrip_with isspace j)) as [H | H];
        rewrite H; [reflexivity | now apply strip_snoc_space].
    + unfold strip. now rewrite <- lstrip_re_sub_fences.
Qed.

(** Cleaning a fenced text gives what cleaning the text itself gives. *)
Lemma clean_fenced (tagged : bool) (j : str) : clean (fenced tagged j) = clean j.
Proof. unfold clean. now rewrite strip_re_sub_fences_fenced. Qed.

(* ------------------------------------------------------------------ *)
(** ** The response parser: fenced responses *)


Lemma re_sub_fences_none (s : str) :
  contains FENCE s = false -> re_sub_fences s = s.
Proof.
  induction s as [|c t IH]; [reflexivity|].
  cbn [contains]. intros H. apply orb_false_iff in H as [H1 H2].
  rewrite re_sub_fences_step. unfold match_fence. rewrite H1.
  now rewrite IH.
Qed.

Lemma rstrip_with_keeps (f : N -> bool) (s : str) (c : N) :
  f c = false -> rstrip_with f (s ++ [c]) = s ++ [c].
Proof.
  intros H. unfold rstrip_with. rewrite rev_app_distr.
  cbn [rev app lstrip_with]. rewrite H.
  cbn [rev]. now rewrite rev_involutive.
Qed.

Lemma upto_last_end (c : N) (s : str) : upto_last c (s ++ [c]) = Some (s ++ [c]).
Proof.
  unfold upto_last. rewrite rev_app_distr. cbn [rev app lstrip_with].
  rewrite N.eqb_refl. cbn [negb rev]. now rewrite rev_involutive.
Qed.

(** A text that opens with a brace, closes with a brace and holds no run
    of three backticks goes to [json.loads] as it is, fenced or not. *)
Lemma fenced_object_text (tagged : bool) (body : str) :
  contains FENCE (chr "{" :: body ++ [chr "}"]) = false ->
  extract_json_from_text (fenced tagged (chr "{" :: body ++ [chr "}"]))
  = json_loads (chr "{" :: body ++ [chr "}"]).
Proof.
  intros H. unfold extract_json_from_text. rewrite clean_fenced.
  unfold clean. rewrite (re_sub_fences_none _ H).
  assert (S1 : strip (chr "{" :: body ++ [chr "}"]) = chr "{" :: body ++ [chr "}"]).
  { unfold strip. cbn [lstrip_with].
    change (isspace (chr "{")) with false. cbv iota.
    change (chr "{" :: body ++ [chr "}"]) with ((chr "{" :: body) ++ [chr "}"]).
    now apply rstrip_with_keeps. }
  rewrite S1.
  change (chr "{" :: body ++ [chr "}"]) with ((chr "{" :: body) ++ [chr "}"]).
  rewrite rstrip_with_keeps by reflexivity.
  change ((chr "{" :: body) ++ [chr "}"]) with (chr "{" :: body ++ [chr "}"]).
  rewrite S1. unfold search_object. cbn [from_first].
  rewrite N.eqb_refl.
  change (chr "{" :: body ++ [chr "}"]) with ((chr "{" :: body) ++ [chr "}"]).
  now rewrite upto_last_end.
Qed.

(* ------------------------------------------------------------------ *)
(** ** The response parser: failures *)

Lemma decoder_error_decode (doc : str) (why : decode_error) :
  decoder_error doc (JSONDecodeError why doc).
Proof. right. now exists why. Qed.

Lemma decoder_error_recursion (doc : str) : decoder_error doc RecursionError.
Proof. now left. Qed.

Create HintDb decoder.

#[local] Hint Resolve decoder_error_decode decoder_error_recursion : decoder.

(** Case analysis on the tests of a decoder function in [H], closing the
    branches that raise or return at once. *)
Ltac decoder_cases H :=
  repeat
    (match type of H with
     | Raise _ = Raise _ => injection H as <-; auto with decoder
     | Ok _ = Raise _ => discriminate H
     | context [match ?x with _ => _ end] => destruct x eqn:?
     end).

Lemma scanstring_raises (doc : str) (e : exn) (n : nat) :
  forall s acc,
    length s <= n -> scanstring doc s acc = Raise e -> decoder_error doc e.
Proof.
  induction n as [n IH] using lt_wf_ind. intros s acc Hn H.
  destruct s as [|c t]; cbn [scanstring] in H; [decoder_cases H|].
  cbn [length] in Hn.
  decoder_cases H;
    try (eapply (IH (n - 1)); [| |exact H]; cbn [length] in *; lia).
  all: eapply (IH (n - 2)); [| |exact H]; cbn [length] in *; lia.
Qed.

Lemma decoder_raises (doc : str) (e : exn) (fuel : nat) :
  (forall s, scan_once fuel doc s = Raise e -> decoder_error doc e)
  /\ (forall s pairs, object_pairs fuel doc s pairs = Raise e -> decoder_error doc e)
  /\ (forall s values, array_items fuel doc s values = Raise e -> decoder_error doc e).
Proof.
  induction fuel as [|fuel (IHs & IHo & IHa)].
  - repeat split.
    + intros s H. cbn in H. decoder_cases H.
    + intros s pairs H. cbn in H. decoder_cases H.
    + intros s values H. cbn in H. decoder_cases H.
  - repeat split.
    + intros s H. cbn [scan_once] in H. unfold bind in H.
      decoder_cases H; eauto using scanstring_raises.
    + intros s pairs H. cbn [object_pairs] in H. unfold bind in H.
      decoder_cases H; eauto using scanstring_raises.
    + intros s values H. cbn [array_items] in H. unfold bind in H.
      decoder_cases H; eauto.
Qed.

Lemma json_loads_raises (doc : str) (e : exn) :
  json_loads doc = Raise e -> decoder_error doc e.
Proof.
  unfold json_loads, bind. intros H.
  decoder_cases H. eapply (proj1 (decoder_raises doc _ _)); eassumption.
Qed.





(* ------------------------------------------------------------------ *)
(** ** Dictionaries *)

Lemma dict_get_set_same (k : str) (v : json) (d : dict) :
  dict_get k (dict_set k v d) = Some v.
Proof.
  induction d as [|[k' v'] d IH]; cbn [dict_set dict_get].
  - now rewrite str_eqb_refl.
  - destruct (str_eqb k k') eqn:E; cbn [dict_get]; now rewrite E.
Qed.

Lemma dict_get_set_other (k k' : str) (v : json) (d : dict) :
  str_eqb k k' = false -> dict_get k (dict_set k' v d) = dict_get k d.
Proof.
  intros N0. induction d as [|[k2 v2] d IH]; cbn [dict_set dict_get].
  - now rewrite N0.
  - destruct (str_eqb k' k2) eqn:E; cbn [dict_get].
    + apply str_eqb_eq in E. subst k2. now rewrite N0.
    + now rewrite IH.
Qed.

Lemma dict_get_update_other (k : str) (extras d : dict) :
  Forall (fun kv => str_eqb k (fst kv) = false) extras ->
  dict_get k (dict_update d extras) = dict_get k d.
Proof.
  unfold dict_update. revert d.
  induction extras as [|[k' v'] extras IH]; intros d H; [reflexivity|].
  inversion H as [|? ? Hk Hr]; subst. cbn [fold_left fst snd].
  rewrite IH by exact Hr. now apply dict_get_set_other.
Qed.

(* ------------------------------------------------------------------ *)
(** ** Rounding *)

Lemma in_unit_interval_spec (v : pyfloat) :
  in_unit_interval v = true <-> inside_unit_interval v.
Proof.
  destruct v as [| |q]; cbn; try (split; [discriminate | tauto]).
  rewrite andb_true_iff, !Qle_bool_iff. tauto.
Qed.

Lemma round_half_even_scaled_close (q : Q) :
  (Qmake (round_half_even_scaled q) 10000 - Qmake 1 20000 <= q
   /\ q <= Qmake (round_half_even_scaled q) 10000 + Qmake 1 20000)%Q.
Proof.
  destruct q as [a d]. unfold round_half_even_scaled. cbn [Qnum Qden].
  pose proof (Z.div_mod (a * 10000) (Zpos d) ltac:(lia)) as E.
  pose proof (Z.mod_pos_bound (a * 10000) (Zpos d) ltac:(lia)) as B.
  set (f := (a * 10000 / Zpos d)%Z) in *.
  set (r := ((a * 10000) mod Zpos d)%Z) in *.
  unfold Qle, Qminus, Qplus, Qopp. cbn [Qnum Qden].
  rewrite !Pos2Z.inj_mul.
  destruct (Z.compare_spec (2 * r) (Zpos d)) as [C | C | C];
    [destruct (Z.even f)| |]; split; nia.
Qed.

Lemma round_half_even_scaled_range (q : Q) :
  (0 <= q)%Q -> (q <= 1)%Q ->
  (0 <= round_half_even_scaled q <= 10000)%Z.
Proof.
  destruct q as [a d]. unfold Qle, round_half_even_scaled. cbn [Qnum Qden].
  intros H0 H1.
  pose proof (Z.div_mod (a * 10000) (Zpos d) ltac:(lia)) as E.
  pose proof (Z.mod_pos_bound (a * 10000) (Zpos d) ltac:(lia)) as B.
  set (f := (a * 10000 / Zpos d)%Z) in *.
  set (r := ((a * 10000) mod Zpos d)%Z) in *.
  destruct (Z.compare_spec (2 * r) (Zpos d)) as [C | C | C];
    [destruct (Z.even f)| |]; nia.
Qed.

(** [round(v, 4)] is [v] rounded to four places, and stays within the unit
    interval. *)
Lemma round4_rounds (v : pyfloat) :
  inside_unit_interval v ->
  rounded_to_4_places v (round4 v) /\ inside_unit_interval (round4 v).
Proof.
  destruct v as [| |q]; cbn [inside_unit_interval]; try tauto.
  intros [H0 H1]. cbn [round4 rounded_to_4_places inside_unit_interval].
  pose proof (round_half_even_scaled_close q) as [C1 C2].
  pose proof (round_half_even_scaled_range H0 H1) as R.
  set (n := round_half_even_scaled q) in *.
  split.
  - exists n. rewrite !Qred_correct.
    split; [reflexivity | split; [exact C1 | exact C2]].
  - rewrite !Qred_correct. unfold Qle. cbn [Qnum Qden]. lia.
Qed.

(* ------------------------------------------------------------------ *)
(** ** The profile models *)

Lemma ap_ok_inv (A B : Type) (rf : checked (A -> B)) (ra : checked A) (b : B) :
  ap rf ra = Ok b -> exists f a, rf = Ok f /\ ra = Ok a /\ b = f a.
Proof.
  destruct rf as [f|es], ra as [a|es']; cbn; try discriminate.
  intros H. injection H as <-. now exists f, a.
Qed.

Lemma required_set_other (A : Type) (name k : str) (f : json -> checked A)
      (c : json) (data : dict) :
  str_eqb name k = false ->
  required name f (dict_set k c data) = required name f data.
Proof. intros H. unfold required. now rewrite dict_get_set_other. Qed.

Lemma with_default_set_other (A : Type) (name k : str) (f : json -> checked A)
      (a : A) (c : json) (data : dict) :
  str_eqb name k = false ->
  with_default name f a (dict_set k c data) = with_default name f a data.
Proof. intros H. unfold with_default. now rewrite dict_get_set_other. Qed.


Lemma with_default_set_same (A : Type) (name : str) (f : json -> checked A)
      (a : A) (c : json) (data : dict) :
  with_default name f a (dict_set name c data) = at_loc (LField name) (f c).
Proof. unfold with_default. now rewrite dict_get_set_same. Qed.

(** Splits [H : rf <*> ra = Ok b] into its two halves, keeping the name
    [H] for the function side. *)
Ltac ap_inv H :=
  let f := fresh "f" in
  let a := fresh "a" in
  let Ha := fresh "Ha" in
  let Hb := fresh "Hb" in
  apply ap_ok_inv in H as (f & a & H & Ha & Hb).

Section ModelProperties.

Variable str_as_int : str -> option Z.
Variable str_as_float : str -> option pyfloat.
Variable bool_as_int : bool -> option Z.
Variable bool_as_float : bool -> option pyfloat.

Local Abbreviation new := (new_profile str_as_int str_as_float bool_as_int bool_as_float).
Local Abbreviation check_company :=
  (check_CompanyProfile str_as_int str_as_float bool_as_int bool_as_float).
Local Abbreviation check_buyer := (check_BuyerProfile str_as_float bool_as_float).
Local Abbreviation confidence := (confidence_field str_as_float bool_as_float).
Local Abbreviation CONFIDENCE := (lit "confidence_score").

Lemma new_profile_ok_inv (cls : schema_class) (data : dict) (p : profile) :
  new cls data = Ok p ->
  match cls with
  | CompanyProfile => exists c, check_company data = Ok c /\ p = Company c
  | BuyerProfile => exists b, check_buyer data = Ok b /\ p = Buyer b
  end.
Proof.
  destruct cls; unfold new_profile, new_CompanyProfile, new_BuyerProfile, raise_validation.
  - destruct (check_company data) as [c|es]; cbn; [|discriminate].
    intros H. injection H as <-. now exists c.
  - destruct (check_buyer data) as [b|es]; cbn; [|discriminate].
    intros H. injection H as <-. now exists b.
Qed.




(** Validation reads the declared fields of the data and nothing else. *)
Lemma new_profile_reads_declared_fields (cls : schema_class) (d d' : dict) :
  (forall k, In k (model_fields cls) -> dict_get k d' = dict_get k d) ->
  new cls d' = new cls d.
Proof.
  intros H.
  destruct cls;
    unfold new_profile, new_CompanyProfile, new_BuyerProfile,
      check_CompanyProfile, check_BuyerProfile, required, with_default;
    repeat match goal with
      | |- context [dict_get ?k d'] =>
          rewrite (H k) by (cbn [model_fields CompanyProfile_fields
                                 BuyerProfile_fields In]; auto 10)
      end;
    reflexivity.
Qed.

Lemma dict_get_absent (k : str) (d : dict) :
  ~ In k (dict_keys d) -> dict_get k d = None.
Proof.
  induction d as [|[k' v'] d IH]; cbn [dict_keys List.map fst In dict_get];
    [reflexivity|].
  intros H. destruct (str_eqb k k') eqn:E.
  - apply str_eqb_eq in E. subst. tauto.
  - apply IH. unfold dict_keys. tauto.
Qed.

Lemma model_dump_keys (p : profile) :
  dict_keys (model_dump p) = model_fields (profile_class p).
Proof. destruct p; reflexivity. Qed.

Lemma new_profile_class (cls : schema_class) (data : dict) (p : profile) :
  new cls data = Ok p -> profile_class p = cls.
Proof.
  intros H. apply new_profile_ok_inv in H.
  destruct cls; destruct H as (x & _ & ->); reflexivity.
Qed.

(** C10. Keys that the target model does not declare never matter to
    validation: data with such keys added validate exactly as the data
    without them, so whenever the declared fields are valid the
    construction succeeds with the same profile; the added keys are not in
    the profile's dump, which holds the declared fields and nothing else. *)
Theorem undeclared_keys_are_ignored :
  forall (cls : schema_class) (data extras : dict),
    Forall (fun kv => ~ In (fst kv) (model_fields cls)) extras ->
    new cls (dict_update data extras) = new cls data
    /\ (forall p,
           new cls data = Ok p ->
           new cls (dict_update data extras) = Ok p
           /\ dict_keys (model_dump p) = model_fields cls
           /\ Forall (fun kv => dict_get (fst kv) (model_dump p) = None) extras).
Proof.
  intros cls data extras Hx.
  assert (E : new cls (dict_update data extras) = new cls data).
  { apply new_profile_reads_declared_fields. intros k Hk.
    apply dict_get_update_other.
    rewrite Forall_forall in *. intros kv Hkv.
    apply str_eqb_neq. intros ->. exact (Hx kv Hkv Hk). }
  split; [exact E|].
  intros p Hp. rewrite E.
  pose proof (@new_profile_class cls data p Hp) as Hc.
  pose proof (model_dump_keys p) as Hk. rewrite Hc in Hk.
  repeat split; [exact Hp | exact Hk |].
  rewrite Forall_forall in *. intros kv Hkv.
  apply dict_get_absent. rewrite Hk. exact (Hx kv Hkv).
Qed.

Local Abbreviation new_buyer := (new_BuyerProfile str_as_float bool_as_float).
Local Abbreviation KEY_CONTACTS := (lit "key_contacts").

Lemma list_items_dicts (i : nat) (contacts : list dict) :
  list_items dict_field i (List.map JDict contacts) = Ok contacts.
Proof.
  revert i; induction contacts as [|d l IH]; intros i; cbn; [reflexivity|].
  now rewrite IH.
Qed.

Lemma list_items_not_dict (i : nat) (items : list json) :
  (exists x, In x items /\ forall d, x <> JDict d) ->
  exists es, list_items dict_field i items = Raise es
             /\ Exists (fun e => snd e = DictType) es.
Proof.
  revert i; induction items as [|y l IH]; intros i [x [Hin Hx]]; [destruct Hin|].
  cbn [list_items].
  destruct Hin as [-> | Hin].
  - assert (F : dict_field x = Raise [([], DictType)]).
    { destruct x; try reflexivity. now contradiction (Hx items). }
    rewrite F. cbn [at_loc List.map fst snd ap].
    destruct (list_items dict_field (S i) l); cbn [ap]; eexists;
      (split; [reflexivity | now left]).
  - destruct (IH (S i)) as (es & -> & Hes); [now exists x|].
    destruct (at_loc (LIndex i) (dict_field y)); cbn [ap]; eexists;
      (split; [reflexivity|]); [exact Hes|].
    apply Exists_app. now right.
Qed.

(** C9, amended.  [key_contacts] is a list of dicts and nothing is asked of
    what a dict holds: it is the empty list when the key is absent; every
    list of JSON objects is accepted and stored as it is, whatever the
    types of the values; a list with an item that is not an object, and a
    value that is not a list, fail validation. *)
Theorem key_contacts_validation :
  forall (data : dict) (p : buyer_profile),
    new_buyer data = Ok p ->
    (dict_get KEY_CONTACTS data = None -> b_key_contacts p = [])
    /\ (forall contacts : list dict,
           new_buyer (dict_set KEY_CONTACTS (JList (List.map JDict contacts)) data)
           = Ok {| b_company_name := b_company_name p;
                   b_industry := b_industry p;
                   b_acquisition_interests := b_acquisition_interests p;
                   b_budget_range := b_budget_range p;
                   b_key_contacts := contacts;
                   b_deal_history := b_deal_history p;
                   b_confidence_score := b_confidence_score p |})
    /\ (forall items : list json,
           (exists x, In x items /\ forall d, x <> JDict d) ->
           exists errors,
             new_buyer (dict_set KEY_CONTACTS (JList items) data)
             = Raise (ValidationError BuyerProfile errors)
             /\ Exists (fun e => snd e = DictType) errors)
    /\ (forall value : json,
           (forall items, value <> JList items) ->
           new_buyer (dict_set KEY_CONTACTS value data)
           = Raise (ValidationError BuyerProfile
                      [([LField KEY_CONTACTS], ListType)])).
Proof.
  intros data p H.
  unfold new_BuyerProfile, raise_validation in *.
  destruct (check_buyer data) as [p0|] eqn:C; [|discriminate].
  injection H as ->.
  unfold check_BuyerProfile in *.
  do 7 ap_inv C. injection C as <-. subst.
  cbn [b_company_name b_industry b_acquisition_interests b_budget_range
       b_key_contacts b_deal_history b_confidence_score].
  repeat split.
  - intros G.
    match goal with
    | Hk : with_default KEY_CONTACTS _ _ _ = _ |- _ =>
        unfold with_default in Hk; rewrite G in Hk; congruence
    end.
  - intros contacts.
    rewrite with_default_set_same.
    rewrite !required_set_other, !with_default_set_other by reflexivity.
    repeat match goal with
      | E : _ = Ok _ |- _ => rewrite ?E; clear E
      end. unfold list_of.
    rewrite list_items_dicts. reflexivity.
  - intros items Hbad.
    rewrite with_default_set_same.
    rewrite !required_set_other, !with_default_set_other by reflexivity.
    repeat match goal with
      | E : _ = Ok _ |- _ => rewrite ?E; clear E
      end. unfold list_of.
    destruct (@list_items_not_dict 0 items Hbad) as (es & -> & Hes).
    cbn [at_loc ap]. eexists. split; [reflexivity|].
    apply Exists_exists in Hes as (e & He1 & He2).
    apply Exists_exists. exists (LField KEY_CONTACTS :: fst e, snd e).
    split; [|exact He2].
    apply in_map_iff. now exists e.
  - intros value Hv.
    rewrite with_default_set_same.
    rewrite !required_set_other, !with_default_set_other by reflexivity.
    repeat match goal with
      | E : _ = Ok _ |- _ => rewrite ?E; clear E
      end.
    destruct value; try reflexivity. now contradiction (Hv items).
Qed.

End ModelProperties.


(** The Acme data with two keys that CompanyProfile does not declare. *)
Lemma undeclared_keys_are_ignored_witness :
  Forall (fun kv => ~ In (fst kv) (model_fields CompanyProfile))
         [ (lit "notes", JStr (lit "seen on the web")); (lit "rank", JInt 3) ]
  /\ new_profile (@no_int str) (@no_float str) (@no_int bool) (@no_float bool)
       CompanyProfile
       (dict_update acme_data
          [ (lit "notes", JStr (lit "seen on the web")); (lit "rank", JInt 3) ])
     = Ok (Company acme_profile).
Proof.
  assert (F : Forall (fun kv => ~ In (fst kv) (model_fields CompanyProfile))
                [ (lit "notes", JStr (lit "seen on the web"));
                  (lit "rank", JInt 3) ]).
  { repeat constructor; cbn; intuition discriminate. }
  split; [exact F|].
  destruct (@undeclared_keys_are_ignored
              (@no_int str) (@no_float str) (@no_int bool) (@no_float bool)
              CompanyProfile acme_data _ F) as [_ H].
  exact (proj1 (H (Company acme_profile) eq_refl)).
Defined.

(** C9, as stated, fails: a contact whose entries are not all strings (here
    an age that is a number) passes validation and is stored as it is. *)
Lemma key_contacts_accepts_a_number :
  dict_get (lit "age") initech_contact = Some (JInt 52)
  /\ new_BuyerProfile (@no_float str) (@no_float bool) initech_data
     = Ok initech_profile.
Proof. split; reflexivity. Qed.

(** A contact whose only entry is a boolean replaces the contacts of the
    Initech data. *)
Lemma key_contacts_validation_witness :
  new_BuyerProfile (@no_float str) (@no_float bool) initech_data
  = Ok initech_profile
  /\ new_BuyerProfile (@no_float str) (@no_float bool)
       (dict_set (lit "key_contacts")
          (JList (List.map JDict [[(lit "active", JBool true)]])) initech_data)
     = Ok {| b_company_name := lit "Initech Capital";
             b_industry := lit "Private Equity";
             b_acquisition_interests := [];
             b_budget_range := None;
             b_key_contacts := [[(lit "active", JBool true)]];
             b_deal_history := [];
             b_confidence_score := FFin (Qmake 87 100) |}.
Proof.
  split; [reflexivity|].
  exact (proj1 (proj2 (@key_contacts_validation
                         (@no_float str) (@no_float bool)
                         initech_data initech_profile eq_refl))
               [[(lit "active", JBool true)]]).
Defined.

(* ------------------------------------------------------------------ *)
(** ** The extraction client *)

Lemma requests_made_app (a b : list event) :
  requests_made (a ++ b) = requests_made a + requests_made b.
Proof. unfold requests_made. now rewrite filter_app, length_app. Qed.

Section ClientProperties.

Variable str_as_int : str -> option Z.
Variable str_as_float : str -> option pyfloat.
Variable bool_as_int : bool -> option Z.
Variable bool_as_float : bool -> option pyfloat.

Local Abbreviation attempt_of :=
  (attempt_body str_as_int str_as_float bool_as_int bool_as_float).
Local Abbreviation loop :=
  (retry_loop str_as_int str_as_float bool_as_int bool_as_float).
Local Abbreviation client :=
  (extract_to_json str_as_int str_as_float bool_as_int bool_as_float).

Lemma requests_made_waited (attempt : nat) (evs : list event) :
  requests_made (waited_before attempt ++ evs) = requests_made evs.
Proof. unfold waited_before. destruct (1 <? attempt); reflexivity. Qed.

(** The three ways an attempt goes on. *)
Lemma retry_loop_ok (endpoint : nat -> post_result) (schema : schema_class)
      (attempt : nat) (later : list nat) (last : option exn) (p : profile) :
  attempt_of schema (endpoint attempt) = Ok p ->
  loop endpoint schema (attempt :: later) last
  = (waited_before attempt ++ [Post attempt], Ok p).
Proof. intros H. cbn [retry_loop]. now rewrite H. Qed.

Lemma retry_loop_uncaught (endpoint : nat -> post_result) (schema : schema_class)
      (attempt : nat) (later : list nat) (last : option exn) (e : exn) :
  attempt_of schema (endpoint attempt) = Raise e ->
  caught_by_retry e = false ->
  loop endpoint schema (attempt :: later) last
  = (waited_before attempt ++ [Post attempt], Raise e).
Proof.
  intros H C. cbn [retry_loop]. rewrite H.
  unfold caught_by_retry in C.
  destruct e; cbn in C; try discriminate; reflexivity.
Qed.

Lemma retry_loop_caught (endpoint : nat -> post_result) (schema : schema_class)
      (attempt : nat) (later : list nat) (last : option exn) (e : exn) :
  attempt_of schema (endpoint attempt) = Raise e ->
  caught_by_retry e = true ->
  exists logged,
    loop endpoint schema (attempt :: later) last
    = (waited_before attempt ++ Post attempt :: logged
         :: fst (loop endpoint schema later (Some e)),
       snd (loop endpoint schema later (Some e)))
    /\ requests_made [logged] = 0.
Proof.
  intros H C. cbn [retry_loop]. rewrite H.
  unfold caught_by_retry in C.
  destruct (loop endpoint schema later (Some e)) as [evs r] eqn:L.
  destruct e; cbn in C; try discriminate; cbn [fst snd];
    eexists; (split; [reflexivity | reflexivity]).
Qed.

(** Never more requests than attempts in the range. *)
Lemma retry_loop_budget (endpoint : nat -> post_result) (schema : schema_class)
      (attempts : list nat) (last : option exn) :
  requests_made (fst (loop endpoint schema attempts last)) <= length attempts.
Proof.
  revert last; induction attempts as [|a later IH]; intros last; [cbn; lia|].
  destruct (attempt_of schema (endpoint a)) as [p|e] eqn:A.
  - rewrite (@retry_loop_ok endpoint schema a later last p A). cbn [fst].
    rewrite requests_made_waited. cbn. lia.
  - destruct (caught_by_retry e) eqn:C.
    + destruct (@retry_loop_caught endpoint schema a later last e A C)
        as (logged & -> & Hl).
      cbn [fst]. rewrite requests_made_waited.
      change (Post a :: logged :: ?x) with ([Post a] ++ [logged] ++ x).
      rewrite !requests_made_app, Hl. specialize (IH (Some e)).
      cbn [length]. change (requests_made [Post a]) with 1. lia.
    + rewrite (@retry_loop_uncaught endpoint schema a later last e A C).
      cbn [fst]. rewrite requests_made_waited. cbn. lia.
Qed.

(** Failures that the loop catches, then a success: the profile of the
    successful attempt is returned, after one request per attempt. *)
Lemma retry_loop_success_after_caught (endpoint : nat -> post_result)
      (schema : schema_class) (before : list nat) (attempt : nat)
      (later : list nat) (last : option exn) (p : profile) :
  Forall (fun a => exists e, attempt_of schema (endpoint a) = Raise e
                             /\ caught_by_retry e = true) before ->
  attempt_of schema (endpoint attempt) = Ok p ->
  snd (loop endpoint schema (before ++ attempt :: later) last) = Ok p
  /\ requests_made (fst (loop endpoint schema (before ++ attempt :: later) last))
     = length before + 1.
Proof.
  intros Hb Hp. revert last.
  induction Hb as [|a before (e & A & C) _ IH]; intros last; cbn [app length].
  - rewrite (@retry_loop_ok endpoint schema attempt later last p Hp).
    cbn [fst snd]. rewrite requests_made_waited. now split.
  - destruct (@retry_loop_caught endpoint schema a (before ++ attempt :: later)
                last e A C) as (logged & -> & Hl).
    cbn [fst snd]. destruct (IH (Some e)) as [I1 I2]. split; [exact I1|].
    rewrite requests_made_waited.
    change (Post a :: logged :: ?x) with ([Post a] ++ [logged] ++ x).
    rewrite !requests_made_app, Hl, I2. reflexivity.
Qed.

(** Only failures that the loop catches: one request per attempt, then the
    [RuntimeError] that names the last of them. *)
Lemma retry_loop_exhausted (endpoint : nat -> post_result)
      (schema : schema_class) (attempts : list nat) (last : option exn) :
  Forall (fun a => exists e, attempt_of schema (endpoint a) = Raise e
                             /\ caught_by_retry e = true) attempts ->
  exists final,
    snd (loop endpoint schema attempts last)
    = Raise (RuntimeError (MAX_RETRIES + 1) final)
    /\ requests_made (fst (loop endpoint schema attempts last)) = length attempts
    /\ match rev attempts with
       | [] => final = last
       | a :: _ => exists e, final = Some e
                             /\ attempt_of schema (endpoint a) = Raise e
       end.
Proof.
  intros Hall. revert last.
  induction Hall as [|a later (e & A & C) _ IH]; intros last.
  - exists last. repeat split.
  - destruct (@retry_loop_caught endpoint schema a later last e A C)
      as (logged & -> & Hl).
    cbn [fst snd]. destruct (IH (Some e)) as (final & I1 & I2 & I3).
    exists final. split; [exact I1|]. split.
    + rewrite requests_made_waited.
      change (Post a :: logged :: ?x) with ([Post a] ++ [logged] ++ x).
      rewrite !requests_made_app, Hl, I2. reflexivity.
    + cbn [rev]. destruct (rev later) as [|b l] eqn:R.
      * cbn [app]. exists e. now subst.
      * cbn [app]. exact I3.
Qed.

(** A profile that the client returns is the one an attempt produced. *)
Lemma retry_loop_returns_an_attempt (endpoint : nat -> post_result)
      (schema : schema_class) (attempts : list nat) (last : option exn)
      (p : profile) :
  snd (loop endpoint schema attempts last) = Ok p ->
  exists a, In a attempts /\ attempt_of schema (endpoint a) = Ok p.
Proof.
  revert last; induction attempts as [|a later IH]; intros last;
    [discriminate|].
  destruct (attempt_of schema (endpoint a)) as [q|e] eqn:A.
  - rewrite (@retry_loop_ok endpoint schema a later last q A). cbn [snd].
    intros H. injection H as <-. exists a. split; [now left | exact A].
  - destruct (caught_by_retry e) eqn:C.
    + destruct (@retry_loop_caught endpoint schema a later last e A C)
        as (logged & -> & _).
      cbn [snd]. intros H. destruct (IH _ H) as (b & Hb & Hp).
      exists b. split; [now right | exact Hp].
    + rewrite (@retry_loop_uncaught endpoint schema a later last e A C).
      discriminate.
Qed.

(** The retry policy of the client for the failures its loop catches: at
    most three requests in any case; a caught failure of the first attempt
    followed by a success gives the profile after exactly two requests;
    three caught failures give, after exactly three requests, the
    [RuntimeError] that names the third. *)
Lemma extract_to_json_retry_policy (endpoint : nat -> post_result)
      (schema : schema_class) :
  requests_made (fst (client endpoint schema)) <= MAX_RETRIES + 1
  /\ (forall e1 p,
         attempt_of schema (endpoint 1) = Raise e1 ->
         caught_by_retry e1 = true ->
         attempt_of schema (endpoint 2) = Ok p ->
         snd (client endpoint schema) = Ok p
         /\ requests_made (fst (client endpoint schema)) = 2)
  /\ (forall e1 e2 e3,
         attempt_of schema (endpoint 1) = Raise e1 ->
         caught_by_retry e1 = true ->
         attempt_of schema (endpoint 2) = Raise e2 ->
         caught_by_retry e2 = true ->
         attempt_of schema (endpoint 3) = Raise e3 ->
         caught_by_retry e3 = true ->
         snd (client endpoint schema) = Raise (RuntimeError 3 (Some e3))
         /\ requests_made (fst (client endpoint schema)) = 3).
Proof.
  unfold extract_to_json. change (seq 1 (MAX_RETRIES + 1)) with [1; 2; 3].
  split; [|split].
  - apply (@retry_loop_budget endpoint schema [1; 2; 3] None).
  - intros e1 p A1 C1 A2.
    apply (@retry_loop_success_after_caught endpoint schema [1] 2 [3] None p);
      [|exact A2].
    repeat constructor. now exists e1.
  - intros e1 e2 e3 A1 C1 A2 C2 A3 C3.
    destruct (@retry_loop_exhausted endpoint schema [1; 2; 3] None)
      as (final & R1 & R2 & R3).
    { repeat constructor; eauto. }
    cbn [rev app] in R3. destruct R3 as (e & -> & A3').
    rewrite A3 in A3'. injection A3' as <-. now split.
Qed.
(** An exception that the loop does not catch leaves the client at the
    attempt that raised it, after the caught failures before it. *)
Lemma retry_loop_uncaught_after_caught (endpoint : nat -> post_result)
      (schema : schema_class) (before : list nat) (attempt : nat)
      (later : list nat) (last : option exn) (e : exn) :
  Forall (fun a => exists e, attempt_of schema (endpoint a) = Raise e
                             /\ caught_by_retry e = true) before ->
  attempt_of schema (endpoint attempt) = Raise e ->
  caught_by_retry e = false ->
  snd (loop endpoint schema (before ++ attempt :: later) last) = Raise e
  /\ requests_made (fst (loop endpoint schema (before ++ attempt :: later) last))
     = length before + 1.
Proof.
  intros Hb He Hu. revert last.
  induction Hb as [|a before (e' & A & C) _ IH]; intros last; cbn [app length].
  - rewrite (@retry_loop_uncaught endpoint schema attempt later last e He Hu).
    cbn [fst snd]. rewrite requests_made_waited. now split.
  - destruct (@retry_loop_caught endpoint schema a (before ++ attempt :: later)
                last e' A C) as (logged & -> & Hl).
    cbn [fst snd]. destruct (IH (Some e')) as [I1 I2]. split; [exact I1|].
    rewrite requests_made_waited.
    change (Post a :: logged :: ?x) with ([Post a] ++ [logged] ++ x).
    rewrite !requests_made_app, Hl, I2. reflexivity.
Qed.

(** C3. A transport failure is not treated as a retryable attempt
    failure: at whichever attempt a request raises one of httpx's transport
    errors, after failures that the loop caught, the error leaves the
    client at once; the attempts after it are not made, whatever they would
    have met. *)
Theorem transport_failure_leaves_the_client :
  forall (endpoint : nat -> post_result) (schema : schema_class)
         (before : list nat) (attempt : nat) (later : list nat) (name : str),
    seq 1 (MAX_RETRIES + 1) = before ++ attempt :: later ->
    Forall (fun a => exists e, attempt_of schema (endpoint a) = Raise e
                               /\ caught_by_retry e = true) before ->
    endpoint attempt = PostFails name ->
    snd (client endpoint schema) = Raise (RequestError name)
    /\ requests_made (fst (client endpoint schema)) = length before + 1.
Proof.
  intros endpoint schema before attempt later name Hs Hb Hp.
  unfold extract_to_json. rewrite Hs.
  apply retry_loop_uncaught_after_caught; [exact Hb | | reflexivity].
  unfold attempt_body. now rewrite Hp.
Qed.

End ClientProperties.

(** A first answer 503, which the loop catches, then a read timeout: the
    timeout leaves the client after two requests, the third attempt
    unmade. *)
Lemma transport_failure_leaves_the_client_witness :
  snd (extract_to_json (@no_int str) (@no_float str) (@no_int bool)
         (@no_float bool) busy_then_timeout CompanyProfile)
  = Raise (RequestError (lit "ReadTimeout"))
  /\ requests_made
       (fst (extract_to_json (@no_int str) (@no_float str) (@no_int bool)
               (@no_float bool) busy_then_timeout CompanyProfile))
     = 2.
Proof.
  apply (@transport_failure_leaves_the_client
           (@no_int str) (@no_float str) (@no_int bool) (@no_float bool)
           busy_then_timeout CompanyProfile [1] 2 [3] (lit "ReadTimeout")).
  - reflexivity.
  - constructor; [|constructor].
    exists (HTTPStatusError 503 (lit "busy")). split; reflexivity.
  - reflexivity.
Defined.

(** C2. With the default of two retries, a client whose first request
    times out and whose second request would be answered with a valid
    completion does not return the profile after two attempts: the timeout
    leaves the client after the first request. *)
Theorem timeout_on_first_call_is_not_retried :
  extract_to_json (@no_int str) (@no_float str) (@no_int bool) (@no_float bool)
    times_out_once CompanyProfile
  = ([Post 1], Raise (RequestError (lit "ConnectTimeout")))
  /\ attempt_body (@no_int str) (@no_float str) (@no_int bool) (@no_float bool)
       CompanyProfile (times_out_once 2)
     = Ok (Company acme_profile)
  /\ MAX_RETRIES = 2.
Proof. repeat split; reflexivity. Qed.

(* ------------------------------------------------------------------ *)
(** ** The per-file processor *)

Section ProcessorProperties.

Variable unicode_lower : str -> nat -> str.
Variable str_as_int : str -> option Z.
Variable str_as_float : str -> option pyfloat.
Variable bool_as_int : bool -> option Z.
Variable bool_as_float : bool -> option pyfloat.

Local Abbreviation client :=
  (extract_to_json str_as_int str_as_float bool_as_int bool_as_float).
Local Abbreviation process :=
  (process_file str_as_int str_as_float bool_as_int bool_as_float).
Local Abbreviation batch :=
  (process_all unicode_lower str_as_int str_as_float bool_as_int bool_as_float).

(** Once the file is read, [process_file] returns a summary whatever
    happens: the success summary with a row appended, or the failure
    summary with the table as it was. *)
Lemma process_file_after_read (env : file_env) (filepath : path)
      (schema : schema_class) (db : list row) (raw_text : str) :
  read_text env = Ok raw_text ->
  exists evs db' s,
    process env filepath schema db = (evs, db', Ok s)
    /\ ((s_status s = STATUS_OK /\ length db' = length db + 1)
        \/ (exists exc, s = failure_summary filepath schema exc /\ db' = db)).
Proof.
  intros R. unfold process_file. rewrite R.
  destruct (client (endpoint env) schema) as [evs [p|exc]].
  - unfold store_result. destruct (insert_error env) as [exc|].
    + do 3 eexists. split; [reflexivity|]. right. now exists exc.
    + do 3 eexists. split; [reflexivity|]. left. split; [reflexivity|].
      rewrite length_app. reflexivity.
  - do 3 eexists. split; [reflexivity|]. right. now exists exc.
Qed.

(** C7. An error of the read is not caught at the boundary of the file
    processor: [process_file] reads the file before its [try], so the
    exception of the read leaves it with no summary, and the loop over the
    files ends there, the files after it unprocessed. *)
Theorem read_failure_leaves_process_file :
  forall (exc : exn) (ep : nat -> post_result) (ie : option exn) (now : str)
         (filepath : path) (schema : schema_class) (db : list row)
         (rest : list (path * file_env)) (results : list summary),
    process {| read_text := Raise exc; endpoint := ep;
               insert_error := ie; utc_now := now |} filepath schema db
    = ([LogInfoProcessing (path_name filepath) (schema_name schema)],
       db, Raise exc)
    /\ batch ((filepath, {| read_text := Raise exc; endpoint := ep;
                            insert_error := ie; utc_now := now |}) :: rest)
             db results
       = ([LogInfoProcessing
             (path_name filepath)
             (schema_name (infer_schema unicode_lower (path_name filepath)))],
          db, Raise exc).
Proof. intros. split; reflexivity. Qed.

(** A file that is not valid UTF-8 ends the run before the Acme file, which
    would have gone well, is looked at. *)
Lemma batch_stops_at_unreadable_file :
  batch [(report_path, not_utf8); (acme_path, acme_all_well)] [] []
  = ([LogInfoProcessing (lit "report.txt") (lit "CompanyProfile")],
     [], Raise UnicodeDecodeError)
  /\ batch [(acme_path, acme_all_well)] [] []
     = (fst (fst (process acme_all_well acme_path CompanyProfile [])),
        snd (fst (process acme_all_well acme_path CompanyProfile [])),
        Ok [ {| s_file := lit "acme_company.txt";
                s_company := lit "Acme Corp";
                s_schema := lit "CompanyProfile";
                s_confidence := FFin (Qmake 23 25);
                s_status := STATUS_OK |} ]).
Proof. split; reflexivity. Qed.

(** C8, amended.  When extraction succeeds and the storage write fails,
    the summary of the file is the failure summary: the file's name, the
    schema's name, the placeholder company, confidence 0.0 and a status
    naming the type of the storage error.  It is fixed by the path, the
    schema and the error: nothing of the validated profile is in it, in
    the error line printed, or in the table. *)
Theorem storage_failure_summary :
  forall (env : file_env) (filepath : path) (schema : schema_class)
         (db : list row) (raw_text : str) (evs : list event)
         (validated : profile) (exc : exn),
    read_text env = Ok raw_text ->
    client (endpoint env) schema = (evs, Ok validated) ->
    insert_error env = Some exc ->
    process env filepath schema db
    = ([LogInfoProcessing (path_name filepath) (schema_name schema)]
         ++ evs ++ [LogErrFailed exc],
       db,
       Ok {| s_file := path_name filepath;
             s_company := NO_COMPANY;
             s_schema := schema_name schema;
             s_confidence := FFin 0%Q;
             s_status := STATUS_FAILED exc |}).
Proof.
  intros env filepath schema db raw_text evs validated exc R E S.
  unfold process_file, store_result. now rewrite R, E, S.
Qed.

End ProcessorProperties.

(** C8, as stated, fails: the Acme profile is extracted and validated, the
    INSERT raises, and the summary holds the placeholder company and
    confidence 0.0, neither of which is the profile's. *)
Lemma storage_failure_drops_the_profile :
  snd (extract_to_json (@no_int str) (@no_float str) (@no_int bool)
         (@no_float bool) (endpoint acme_store_down) CompanyProfile)
  = Ok (Company acme_profile)
  /\ snd (process_file (@no_int str) (@no_float str) (@no_int bool)
            (@no_float bool) acme_store_down acme_path CompanyProfile [])
     = Ok {| s_file := lit "acme_company.txt";
             s_company := NO_COMPANY;
             s_schema := lit "CompanyProfile";
             s_confidence := FFin 0%Q;
             s_status := STATUS_FAILED (SqliteError (lit "OperationalError")) |}
  /\ NO_COMPANY <> c_company_name acme_profile
  /\ FFin 0%Q <> c_confidence_score acme_profile.
Proof. repeat split; try reflexivity; discriminate. Qed.

(** The Acme file when the INSERT raises [sqlite3.OperationalError]. *)
Lemma storage_failure_summary_witness :
  read_text acme_store_down
  = Ok (lit "Acme Corp is a San Francisco SaaS company with 1200 employees...")
  /\ extract_to_json (@no_int str) (@no_float str) (@no_int bool)
       (@no_float bool) (endpoint acme_store_down) CompanyProfile
     = ([Post 1], Ok (Company acme_profile))
  /\ insert_error acme_store_down = Some (SqliteError (lit "OperationalError"))
  /\ process_file (@no_int str) (@no_float str) (@no_int bool)
       (@no_float bool) acme_store_down acme_path CompanyProfile []
     = ([LogInfoProcessing (lit "acme_company.txt") (lit "CompanyProfile")]
          ++ [Post 1] ++ [LogErrFailed (SqliteError (lit "OperationalError"))],
        [],
        Ok {| s_file := lit "acme_company.txt";
              s_company := NO_COMPANY;
              s_schema := lit "CompanyProfile";
              s_confidence := FFin 0%Q;
              s_status := STATUS_FAILED (SqliteError (lit "OperationalError")) |}).
Proof.
  split; [reflexivity|]. split; [reflexivity|]. split; [reflexivity|].
  exact (@storage_failure_summary
           (@no_int str) (@no_float str) (@no_int bool) (@no_float bool)
           acme_store_down acme_path CompanyProfile []
           (lit "Acme Corp is a San Francisco SaaS company with 1200 employees...")
           [Post 1] (Company acme_profile)
           (SqliteError (lit "OperationalError")) eq_refl eq_refl eq_refl).
Defined.

(** The end-to-end scenario: the Acme text, answered with the Acme
    completion, is stored as one CompanyProfile row with confidence 0.92,
    and the summary reports success. *)
Lemma process_file_acme :
  process_file (@no_int str) (@no_float str) (@no_int bool) (@no_float bool)
    acme_all_well acme_path CompanyProfile []
  = ([LogInfoProcessing (lit "acme_company.txt") (lit "CompanyProfile");
      Post 1; LogOk (lit "Acme Corp") (FFin (Qmake 23 25))],
     [ {| source_file := lit "examples/sample_texts/acme_company.txt";
          schema_type := lit "CompanyProfile";
          company_name := lit "Acme Corp";
          industry := lit "Technology";
          extracted_json := model_dump (Company acme_profile);
          confidence_score := FFin (Qmake 23 25);
          model_version := MODEL_VERSION;
          extracted_at := lit "2024-01-01T00:00:00+00:00" |} ],
     Ok {| s_file := lit "acme_company.txt";
           s_company := lit "Acme Corp";
           s_schema := lit "CompanyProfile";
           s_confidence := FFin (Qmake 23 25);
           s_status := STATUS_OK |}).
Proof. reflexivity. Qed.

(* ================================================================== *)
(** * Further properties *)

(* ------------------------------------------------------------------ *)
(** ** The schema registry and the models *)

Lemma lower_from_ascii (unicode_lower : str -> nat -> str) (whole : str)
      (i : nat) (rest : str) :
  is_ascii rest = true ->
  lower_from unicode_lower whole i rest = List.map ascii_lower rest.
Proof.
  revert i; induction rest as [|c t IH]; intros i H; [reflexivity|].
  cbn [is_ascii forallb] in H. apply andb_true_iff in H as [Hc Ht].
  cbn [lower_from List.map]. rewrite Hc. cbn [app]. f_equal. now apply IH.
Qed.

(** For ASCII file names the schema does not depend on the case of the
    letters, nor on the Unicode case tables: two ASCII names that are equal
    once their capital letters are lowered get the same schema. *)
Theorem infer_schema_ignores_ascii_case :
  forall (unicode_lower unicode_lower' : str -> nat -> str) (a b : str),
    is_ascii a = true ->
    is_ascii b = true ->
    List.map ascii_lower a = List.map ascii_lower b ->
    infer_schema unicode_lower a = infer_schema unicode_lower' b.
Proof.
  intros ul ul' a b Ha Hb E. unfold infer_schema, lower.
  now rewrite !lower_from_ascii, E by assumption.
Qed.

(** "Sequoia_CAPITAL.TXT" and "sequoia_capital.txt". *)
Lemma infer_schema_ignores_ascii_case_witness :
  infer_schema keep_case (lit "Sequoia_CAPITAL.TXT") = BuyerProfile
  /\ infer_schema keep_case (lit "Sequoia_CAPITAL.TXT")
     = infer_schema (fun _ _ => []) (lit "sequoia_capital.txt").
Proof.
  split; [reflexivity|].
  apply (@infer_schema_ignores_ascii_case keep_case (fun _ _ => [])
           (lit "Sequoia_CAPITAL.TXT") (lit "sequoia_capital.txt"));
    reflexivity.
Defined.

Lemma round_half_even_scaled_exact (q : Q) (n : Z) :
  (q == Qmake n 10000)%Q -> round_half_even_scaled q = n.
Proof.
  destruct q as [a d]. unfold Qeq, round_half_even_scaled. cbn [Qnum Qden].
  intros E. rewrite E, Z.div_mul, Z.mod_mul by lia.
  destruct (Z.compare_spec (2 * 0) (Zpos d)); [lia | reflexivity | lia].
Qed.

(** Rounding twice is rounding once. *)
Lemma round4_idempotent (v : pyfloat) : round4 (round4 v) = round4 v.
Proof.
  destruct v as [| |q]; try reflexivity. cbn [round4].
  rewrite (@round_half_even_scaled_exact
             (Qred (Qmake (round_half_even_scaled q) 10000))
             (round_half_even_scaled q)); [reflexivity|].
  apply Qred_correct.
Qed.

Section MoreModelProperties.

Variable str_as_int : str -> option Z.
Variable str_as_float : str -> option pyfloat.
Variable bool_as_int : bool -> option Z.
Variable bool_as_float : bool -> option pyfloat.

Local Abbreviation new := (new_profile str_as_int str_as_float bool_as_int bool_as_float).
Local Abbreviation check_company :=
  (check_CompanyProfile str_as_int str_as_float bool_as_int bool_as_float).
Local Abbreviation check_buyer := (check_BuyerProfile str_as_float bool_as_float).
Local Abbreviation confidence := (confidence_field str_as_float bool_as_float).
Local Abbreviation CONFIDENCE := (lit "confidence_score").

Lemma at_loc_ok_inv (A : Type) (l : loc_item) (r : checked A) (a : A) :
  at_loc l r = Ok a -> r = Ok a.
Proof. destruct r; cbn; congruence. Qed.

Lemma confidence_field_ok_inv (c : json) (a : pyfloat) :
  confidence c = Ok a ->
  exists v, float_field str_as_float bool_as_float c = Ok v
            /\ in_unit_interval v = true /\ a = round4 v.
Proof.
  unfold confidence_field, after_validator, validate_confidence.
  destruct (float_field str_as_float bool_as_float c) as [v|]; [|discriminate].
  destruct (in_unit_interval v) eqn:E; cbn [negb]; [|discriminate].
  intros H. injection H as <-. now exists v.
Qed.

Lemma required_ok_inv (A : Type) (name : str) (f : json -> checked A)
      (data : dict) (a : A) :
  required name f data = Ok a ->
  exists v, dict_get name data = Some v /\ f v = Ok a.
Proof.
  unfold required. destruct (dict_get name data) as [v|]; [|discriminate].
  intros H. apply at_loc_ok_inv in H. now exists v.
Qed.

(** The confidence of a constructed profile came out of the validator. *)
Lemma new_profile_confidence (cls : schema_class) (data : dict) (p : profile) :
  new cls data = Ok p ->
  exists c v,
    dict_get CONFIDENCE data = Some c
    /\ float_field str_as_float bool_as_float c = Ok v
    /\ in_unit_interval v = true
    /\ profile_confidence_score p = round4 v.
Proof.
  intros H.
  assert (K : exists a, required CONFIDENCE confidence data = Ok a
                        /\ profile_confidence_score p = a).
  { destruct cls;
      unfold new_profile, new_CompanyProfile, new_BuyerProfile,
        raise_validation, bind in H.
    - destruct (check_company data) as [x|] eqn:C; [|discriminate].
      injection H as <-. unfold check_CompanyProfile in C.
      do 8 ap_inv C. injection C as <-. subst. eexists. split; [eassumption|].
      reflexivity.
    - destruct (check_buyer data) as [x|] eqn:C; [|discriminate].
      injection H as <-. unfold check_BuyerProfile in C.
      do 7 ap_inv C. injection C as <-. subst. eexists. split; [eassumption|].
      reflexivity. }
  destruct K as (a & R & ->).
  apply required_ok_inv in R as (c & G & F).
  apply confidence_field_ok_inv in F as (v & F1 & F2 & ->).
  now exists c, v.
Qed.

(** Every profile that construction returns is of the class asked for,
    and its confidence lies in the unit interval and is a value rounded to
    four places: rounding it again changes nothing. *)
Theorem new_profile_invariants :
  forall (cls : schema_class) (data : dict) (p : profile),
    new cls data = Ok p ->
    profile_class p = cls
    /\ inside_unit_interval (profile_confidence_score p)
    /\ round4 (profile_confidence_score p) = profile_confidence_score p
    /\ exists n : Z, (0 <= n <= 10000)%Z
                     /\ profile_confidence_score p = FFin (Qred (Qmake n 10000)).
Proof.
  intros cls data p H.
  split; [exact (@new_profile_class str_as_int str_as_float bool_as_int
                   bool_as_float cls data p H)|].
  destruct (@new_profile_confidence cls data p H) as (c & v & _ & _ & B & ->).
  apply in_unit_interval_spec in B.
  split; [exact (proj2 (@round4_rounds v B))|].
  split; [apply round4_idempotent|].
  destruct v as [| |q]; cbn [inside_unit_interval] in B; try contradiction.
  destruct B as [B0 B1].
  exists (round_half_even_scaled q). split; [|reflexivity].
  now apply round_half_even_scaled_range.
Qed.

End MoreModelProperties.

(** The Acme data. *)
Lemma new_profile_invariants_witness :
  new_profile (@no_int str) (@no_float str) (@no_int bool) (@no_float bool)
    CompanyProfile acme_data
  = Ok (Company acme_profile)
  /\ round4 (c_confidence_score acme_profile) = c_confidence_score acme_profile.
Proof.
  split; [reflexivity|].
  exact (proj1 (proj2 (proj2 (@new_profile_invariants
                                (@no_int str) (@no_float str) (@no_int bool)
                                (@no_float bool) CompanyProfile acme_data
                                (Company acme_profile) eq_refl)))).
Defined.

Lemma list_items_strs (i : nat) (l : list str) :
  list_items str_field i (List.map JStr l) = Ok l.
Proof.
  revert i; induction l as [|s l IH]; intros i; cbn; [reflexivity|].
  now rewrite IH.
Qed.

Section DumpRoundTrip.

Variable str_as_int : str -> option Z.
Variable str_as_float : str -> option pyfloat.
Variable bool_as_int : bool -> option Z.
Variable bool_as_float : bool -> option pyfloat.

Local Abbreviation new := (new_profile str_as_int str_as_float bool_as_int bool_as_float).

Lemma confidence_field_fixed (v : pyfloat) :
  inside_unit_interval v -> round4 v = v ->
  confidence_field str_as_float bool_as_float (JFloat v) = Ok v.
Proof.
  intros H R. apply in_unit_interval_spec in H.
  unfold confidence_field, after_validator, validate_confidence.
  cbn [float_field]. now rewrite H, R.
Qed.

(** Validating the dump of a profile whose confidence is a rounded value
    of the unit interval gives the profile back. *)
Lemma new_profile_model_dump (p : profile) :
  inside_unit_interval (profile_confidence_score p) ->
  round4 (profile_confidence_score p) = profile_confidence_score p ->
  new (profile_class p) (model_dump p) = Ok p.
Proof.
  intros H R. destruct p as [x | x]; cbn [profile_confidence_score] in H, R;
    cbn [profile_class];
    unfold new_profile, new_CompanyProfile, new_BuyerProfile,
      check_CompanyProfile, check_BuyerProfile, required, with_default.
  - change (dict_get (lit "company_name") (model_dump (Company x)))
      with (Some (JStr (c_company_name x))).
    change (dict_get (lit "industry") (model_dump (Company x)))
      with (Some (JStr (c_industry x))).
    change (dict_get (lit "headquarters") (model_dump (Company x)))
      with (Some (dump_optional JStr (c_headquarters x))).
    change (dict_get (lit "employee_count") (model_dump (Company x)))
      with (Some (dump_optional JInt (c_employee_count x))).
    change (dict_get (lit "revenue_range") (model_dump (Company x)))
      with (Some (dump_optional JStr (c_revenue_range x))).
    change (dict_get (lit "key_products") (model_dump (Company x)))
      with (Some (dump_strs (c_key_products x))).
    change (dict_get (lit "description") (model_dump (Company x)))
      with (Some (JStr (c_description x))).
    change (dict_get (lit "confidence_score") (model_dump (Company x)))
      with (Some (JFloat (c_confidence_score x))).
    cbv beta iota. rewrite (confidence_field_fixed H R).
    unfold dump_strs, list_of. rewrite list_items_strs.
    destruct x as [n i [h|] [e|] [r|] k d c]; reflexivity.
  - change (dict_get (lit "company_name") (model_dump (Buyer x)))
      with (Some (JStr (b_company_name x))).
    change (dict_get (lit "industry") (model_dump (Buyer x)))
      with (Some (JStr (b_industry x))).
    change (dict_get (lit "acquisition_interests") (model_dump (Buyer x)))
      with (Some (dump_strs (b_acquisition_interests x))).
    change (dict_get (lit "budget_range") (model_dump (Buyer x)))
      with (Some (dump_optional JStr (b_budget_range x))).
    change (dict_get (lit "key_contacts") (model_dump (Buyer x)))
      with (Some (JList (List.map JDict (b_key_contacts x)))).
    change (dict_get (lit "deal_history") (model_dump (Buyer x)))
      with (Some (dump_strs (b_deal_history x))).
    change (dict_get (lit "confidence_score") (model_dump (Buyer x)))
      with (Some (JFloat (b_confidence_score x))).
    cbv beta iota. rewrite (confidence_field_fixed H R).
    unfold dump_strs, list_of. rewrite !list_items_strs, list_items_dicts.
    destruct x as [n i a [b|] k d c]; reflexivity.
Qed.

(** Round trip of a validated profile through its dump: what
    [model_dump_json] writes for a profile that construction returned
    validates, against the same class, to the same profile. *)
Theorem validated_profile_round_trip :
  forall (cls : schema_class) (data : dict) (p : profile),
    new cls data = Ok p ->
    new cls (model_dump p) = Ok p.
Proof.
  intros cls data p H.
  pose proof (@new_profile_class str_as_int str_as_float bool_as_int
                bool_as_float cls data p H) as C.
  destruct (@new_profile_confidence str_as_int str_as_float bool_as_int
              bool_as_float cls data p H) as (c & v & _ & _ & B & E).
  apply in_unit_interval_spec in B.
  rewrite <- C. apply new_profile_model_dump.
  - rewrite E. exact (proj2 (@round4_rounds v B)).
  - rewrite E. apply round4_idempotent.
Qed.

End DumpRoundTrip.

(** The Acme profile, dumped and validated again. *)
Lemma validated_profile_round_trip_witness :
  new_profile (@no_int str) (@no_float str) (@no_int bool) (@no_float bool)
    CompanyProfile acme_data
  = Ok (Company acme_profile)
  /\ new_profile (@no_int str) (@no_float str) (@no_int bool) (@no_float bool)
       CompanyProfile (model_dump (Company acme_profile))
     = Ok (Company acme_profile).
Proof.
  split; [reflexivity|].
  exact (@validated_profile_round_trip
           (@no_int str) (@no_float str) (@no_int bool) (@no_float bool)
           CompanyProfile acme_data (Company acme_profile) eq_refl).
Defined.

(* ------------------------------------------------------------------ *)
(** ** Validation errors, field by field *)

Lemma errors_of_ap (A B : Type) (rf : checked (A -> B)) (ra : checked A) :
  errors_of (ap rf ra) = errors_of rf ++ errors_of ra.
Proof.
  destruct rf, ra; cbn [ap errors_of app]; auto using app_nil_r.
Qed.

Lemma required_errors (A : Type) (name : str) (f : json -> checked A)
      (data : dict) (e : error_detail) :
  In e (errors_of (required name f data)) ->
  error_field e = Some name
  /\ (dict_get name data = None -> e = ([LField name], Missing)).
Proof.
  unfold required. destruct (dict_get name data) as [v|].
  - destruct (f v) as [a|es]; cbn [at_loc errors_of]; [intros []|].
    intros H. apply in_map_iff in H as (e0 & <- & _).
    split; [reflexivity | discriminate].
  - cbn [errors_of In]. intros [<- | []]. now split.
Qed.

Lemma with_default_errors (A : Type) (name : str) (f : json -> checked A)
      (a : A) (data : dict) (e : error_detail) :
  In e (errors_of (with_default name f a data)) ->
  error_field e = Some name /\ dict_get name data <> None.
Proof.
  unfold with_default. destruct (dict_get name data) as [v|].
  - destruct (f v) as [x|es]; cbn [at_loc errors_of]; [intros []|].
    intros H. apply in_map_iff in H as (e0 & <- & _).
    split; [reflexivity | discriminate].
  - intros [].
Qed.

Lemma required_missing (A : Type) (name : str) (data : dict) :
  dict_get name data = None ->
  forall f : json -> checked A,
    errors_of (required name f data) = [([LField name], Missing)].
Proof. intros H f. unfold required. now rewrite H. Qed.

Section ValidationErrors.

Variable str_as_int : str -> option Z.
Variable str_as_float : str -> option pyfloat.
Variable bool_as_int : bool -> option Z.
Variable bool_as_float : bool -> option pyfloat.

Local Abbreviation new := (new_profile str_as_int str_as_float bool_as_int bool_as_float).
Local Abbreviation check_company :=
  (check_CompanyProfile str_as_int str_as_float bool_as_int bool_as_float).
Local Abbreviation check_buyer := (check_BuyerProfile str_as_float bool_as_float).
Local Abbreviation errors_in :=
  (validation_errors str_as_int str_as_float bool_as_int bool_as_float).

Lemma new_profile_raises (cls : schema_class) (data : dict) :
  (forall e, new cls data = Raise e ->
             e = ValidationError cls (errors_in cls data))
  /\ (errors_in cls data <> [] ->
      new cls data = Raise (ValidationError cls (errors_in cls data))).
Proof.
  destruct cls;
    unfold new_profile, new_CompanyProfile, new_BuyerProfile, raise_validation,
      validation_errors, bind.
  - destruct (check_company data); cbn [errors_of]; split; congruence.
  - destruct (check_buyer data); cbn [errors_of]; split; congruence.
Qed.

Lemma validation_errors_fields (cls : schema_class) (data : dict) :
  errors_in cls data
  = match cls with
    | CompanyProfile =>
        errors_of (required (lit "company_name") str_field data)
        ++ errors_of (required (lit "industry") str_field data)
        ++ errors_of (with_default (lit "headquarters") (optional str_field) None data)
        ++ errors_of (with_default (lit "employee_count")
                        (optional (int_field str_as_int bool_as_int)) None data)
        ++ errors_of (with_default (lit "revenue_range") (optional str_field) None data)
        ++ errors_of (with_default (lit "key_products") (list_of str_field) [] data)
        ++ errors_of (required (lit "description") str_field data)
        ++ errors_of (required (lit "confidence_score")
                        (confidence_field str_as_float bool_as_float) data)
    | BuyerProfile =>
        errors_of (required (lit "company_name") str_field data)
        ++ errors_of (required (lit "industry") str_field data)
        ++ errors_of (with_default (lit "acquisition_interests") (list_of str_field) [] data)
        ++ errors_of (with_default (lit "budget_range") (optional str_field) None data)
        ++ errors_of (with_default (lit "key_contacts") (list_of dict_field) [] data)
        ++ errors_of (with_default (lit "deal_history") (list_of str_field) [] data)
        ++ errors_of (required (lit "confidence_score")
                        (confidence_field str_as_float bool_as_float) data)
    end.
Proof.
  destruct cls; unfold validation_errors, check_CompanyProfile, check_BuyerProfile;
    rewrite !errors_of_ap; cbn [errors_of app]; rewrite <- ?app_assoc; reflexivity.
Qed.

(** Every error of a validation is located at a declared field; when the
    data have no entry for that field, the field is one declared without
    default and the error is [missing]. *)
Lemma validation_error_located (cls : schema_class) (data : dict)
      (e : error_detail) :
  In e (errors_in cls data) ->
  exists name,
    In name (model_fields cls)
    /\ error_field e = Some name
    /\ (dict_get name data = None ->
        field_is_required cls name = true /\ e = ([LField name], Missing)).
Proof.
  rewrite validation_errors_fields. destruct cls; rewrite !in_app_iff;
    intros H;
    repeat match type of H with
      | _ \/ _ => destruct H as [H | H]
      end;
    (apply required_errors in H as [H1 H2]
     || apply with_default_errors in H as [H1 H2]);
    eexists; (split; [|split; [exact H1|]]);
    try (cbn [model_fields CompanyProfile_fields BuyerProfile_fields In];
         auto 10; fail);
    intros G;
    first [ exfalso; exact (H2 G)
          | split; [reflexivity | exact (H2 G)] ].
Qed.

(** A field declared without default that the data lack is reported as
    [missing]. *)
Lemma missing_field_reported (cls : schema_class) (data : dict) (name : str) :
  In name (model_fields cls) ->
  field_is_required cls name = true ->
  dict_get name data = None ->
  In ([LField name], Missing) (errors_in cls data).
Proof.
  intros Hin Hr Hg. rewrite validation_errors_fields.
  destruct cls;
    cbn [model_fields CompanyProfile_fields BuyerProfile_fields In] in Hin;
    repeat match type of Hin with
      | _ \/ _ => destruct Hin as [Hin | Hin]
      | False => destruct Hin
      end;
    subst name; try discriminate Hr;
    match type of Hg with
    | dict_get ?n data = None =>
        match goal with
        | |- context [required n ?f data] =>
            rewrite (@required_missing _ n data Hg f)
        end
    end;
    rewrite !in_app_iff; cbn [In]; auto 12.
Qed.

(** What a failed construction reports.  The exception is the model's
    [ValidationError]; each of its errors is located at a declared field,
    and an error at a field the data have no entry for is [missing], at a
    field declared without default; conversely every field declared
    without default that the data lack is reported as [missing]. *)
Theorem validation_failure_report :
  forall (cls : schema_class) (data : dict) (exc : exn),
    new cls data = Raise exc ->
    exists errors,
      exc = ValidationError cls errors
      /\ (forall e, In e errors ->
                    exists name,
                      In name (model_fields cls)
                      /\ error_field e = Some name
                      /\ (dict_get name data = None ->
                          field_is_required cls name = true
                          /\ e = ([LField name], Missing)))
      /\ (forall name,
             In name (model_fields cls) ->
             field_is_required cls name = true ->
             dict_get name data = None ->
             In ([LField name], Missing) errors).
Proof.
  intros cls data exc H.
  exists (errors_in cls data). split; [|split].
  - exact (proj1 (new_profile_raises cls data) exc H).
  - intros e. apply validation_error_located.
  - intros name. apply missing_field_reported.
Qed.

(** An explicit null for a field annotated [list[...]] fails validation
    with [list_type] at that field, whatever the rest of the data, although
    the field has a default. *)
Theorem null_for_a_list_field_is_rejected :
  forall (cls : schema_class) (name : str) (data : dict),
    In name (list_fields cls) ->
    dict_get name data = Some JNull ->
    field_is_required cls name = false
    /\ exists errors,
         new cls data = Raise (ValidationError cls errors)
         /\ In ([LField name], ListType) errors.
Proof.
  intros cls name data Hin Hg.
  assert (E : In ([LField name], ListType) (errors_in cls data)).
  { rewrite validation_errors_fields.
    destruct cls; cbn [list_fields In] in Hin;
      repeat match type of Hin with
        | _ \/ _ => destruct Hin as [Hin | Hin]
        | False => destruct Hin
        end;
      subst name; unfold with_default; rewrite !Hg;
      cbn [list_of fail_with at_loc List.map fst snd errors_of app];
      rewrite !in_app_iff; cbn [In]; auto 12. }
  split.
  - destruct cls; cbn [list_fields In] in Hin;
      repeat match type of Hin with
        | _ \/ _ => destruct Hin as [Hin | Hin]
        | False => destruct Hin
        end;
      subst name; reflexivity.
  - exists (errors_in cls data). split; [|exact E].
    apply new_profile_raises. intros N. rewrite N in E. destruct E.
Qed.

(** An explicit null for a field annotated [Optional[...]] is the same as
    no entry: data that differ only in having null or nothing for that
    field validate alike. *)
Theorem null_for_an_optional_field_is_the_default :
  forall (cls : schema_class) (name : str) (data data' : dict),
    In name (optional_fields cls) ->
    dict_get name data = Some JNull ->
    dict_get name data' = None ->
    (forall k, k <> name -> dict_get k data' = dict_get k data) ->
    new cls data = new cls data'.
Proof.
  intros cls name data data' Hin Hnull Hnone Hsame.
  destruct cls; cbn [optional_fields In] in Hin;
    repeat match type of Hin with
      | _ \/ _ => destruct Hin as [Hin | Hin]
      | False => destruct Hin
      end;
    subst name;
    unfold new_profile, new_CompanyProfile, new_BuyerProfile,
      check_CompanyProfile, check_BuyerProfile, required, with_default;
    rewrite Hnull, Hnone;
    repeat match goal with
      | |- context [dict_get ?k data'] => rewrite (Hsame k) by discriminate
      end;
    reflexivity.
Qed.

End ValidationErrors.

(** No data at all: the four fields that CompanyProfile declares without
    default are reported. *)
Lemma validation_failure_report_witness :
  new_profile (@no_int str) (@no_float str) (@no_int bool) (@no_float bool)
    CompanyProfile []
  = Raise (ValidationError CompanyProfile
             [ ([LField (lit "company_name")], Missing);
               ([LField (lit "industry")], Missing);
               ([LField (lit "description")], Missing);
               ([LField (lit "confidence_score")], Missing) ])
  /\ exists errors,
       ValidationError CompanyProfile
         [ ([LField (lit "company_name")], Missing);
           ([LField (lit "industry")], Missing);
           ([LField (lit "description")], Missing);
           ([LField (lit "confidence_score")], Missing) ]
       = ValidationError CompanyProfile errors
       /\ In ([LField (lit "description")], Missing) errors.
Proof.
  split; [reflexivity|].
  destruct (@validation_failure_report
              (@no_int str) (@no_float str) (@no_int bool) (@no_float bool)
              CompanyProfile [] _ eq_refl) as (errors & E & _ & M).
  exists errors. split; [exact E|].
  apply M; [cbn; auto 10 | reflexivity | reflexivity].
Defined.

(** The Acme data with null for key_products. *)
Lemma null_for_a_list_field_is_rejected_witness :
  In (lit "key_products") (list_fields CompanyProfile)
  /\ dict_get (lit "key_products")
       (dict_set (lit "key_products") JNull acme_data) = Some JNull
  /\ exists errors,
       new_profile (@no_int str) (@no_float str) (@no_int bool) (@no_float bool)
         CompanyProfile (dict_set (lit "key_products") JNull acme_data)
       = Raise (ValidationError CompanyProfile errors)
       /\ In ([LField (lit "key_products")], ListType) errors.
Proof.
  split; [now left|]. split; [reflexivity|].
  exact (proj2 (@null_for_a_list_field_is_rejected
                  (@no_int str) (@no_float str) (@no_int bool) (@no_float bool)
                  CompanyProfile (lit "key_products")
                  (dict_set (lit "key_products") JNull acme_data)
                  (or_introl eq_refl) eq_refl)).
Defined.

(** The Initech data, which have no budget_range, and the same with null
    for it. *)
Lemma null_for_an_optional_field_is_the_default_witness :
  new_profile (@no_int str) (@no_float str) (@no_int bool) (@no_float bool)
    BuyerProfile (initech_data ++ [(lit "budget_range", JNull)])
  = new_profile (@no_int str) (@no_float str) (@no_int bool) (@no_float bool)
      BuyerProfile initech_data.
Proof.
  apply (@null_for_an_optional_field_is_the_default
           (@no_int str) (@no_float str) (@no_int bool) (@no_float bool)
           BuyerProfile (lit "budget_range")
           (initech_data ++ [(lit "budget_range", JNull)]) initech_data).
  - now left.
  - reflexivity.
  - reflexivity.
  - intros k Hk. unfold initech_data. cbn [app dict_get].
    repeat match goal with
      | |- context [str_eqb k ?x] => destruct (str_eqb k x) eqn:?
      end; try reflexivity.
    match goal with
    | E : str_eqb k (lit "budget_range") = true |- _ =>
        apply str_eqb_eq in E; contradiction
    end.
Defined.

(* ------------------------------------------------------------------ *)
(** ** The system prompt *)

Lemma occurs_in_refl (s : str) : occurs_in s s.
Proof. exists [], []. now rewrite app_nil_r. Qed.

Lemma occurs_in_app_l (x a b : str) : occurs_in x a -> occurs_in x (a ++ b).
Proof.
  intros (pre & post & ->). exists pre, (post ++ b).
  now rewrite <- !app_assoc.
Qed.

Lemma occurs_in_app_r (x a b : str) : occurs_in x b -> occurs_in x (a ++ b).
Proof.
  intros (pre & post & ->). exists (a ++ pre), post.
  now rewrite <- !app_assoc.
Qed.

Lemma occurs_in_join (sep x : str) (parts : list str) :
  In x parts -> occurs_in x (join sep parts).
Proof.
  induction parts as [|y rest IH]; [intros []|].
  intros [-> | H].
  - destruct rest; [apply occurs_in_refl|].
    cbn [join]. apply occurs_in_app_l, occurs_in_refl.
  - destruct rest as [|z rest']; [destruct H|].
    change (join sep (y :: z :: rest')) with (y ++ sep ++ join sep (z :: rest')).
    apply occurs_in_app_r, occurs_in_app_r, IH, H.
Qed.

Section PromptProperties.

Variable annotation_text : schema_class -> str -> str.
Variable str_as_int : str -> option Z.
Variable str_as_float : str -> option pyfloat.
Variable bool_as_int : bool -> option Z.
Variable bool_as_float : bool -> option pyfloat.

Local Abbreviation new := (new_profile str_as_int str_as_float bool_as_int bool_as_float).
Local Abbreviation errors_in :=
  (validation_errors str_as_int str_as_float bool_as_int bool_as_float).

(** The system prompt has a line for every declared field, and what the
    line says of the field agrees with validation: a field marked
    [required] fails validation with [missing] whenever the data lack it;
    a field marked [optional, use null if unknown] is never the place of an
    error when the data lack it. *)
Theorem prompt_lines_agree_with_validation :
  forall (cls : schema_class) (name : str),
    In name (model_fields cls) ->
    occurs_in (field_line annotation_text cls name)
              (build_system_prompt annotation_text cls)
    /\ (exists before,
          field_line annotation_text cls name
          = before ++ (if field_is_required cls name
                       then REQUIRED_MARK else OPTIONAL_MARK) ++ lit ")")
    /\ (field_is_required cls name = true ->
        forall data,
          dict_get name data = None ->
          exists errors,
            new cls data = Raise (ValidationError cls errors)
            /\ In ([LField name], Missing) errors)
    /\ (field_is_required cls name = false ->
        forall data errors e,
          dict_get name data = None ->
          new cls data = Raise (ValidationError cls errors) ->
          In e errors ->
          error_field e <> Some name).
Proof.
  intros cls name Hin. split; [|split; [|split]].
  - unfold build_system_prompt.
    cbv zeta. do 5 apply occurs_in_app_r. apply occurs_in_app_l.
    apply occurs_in_join, in_map, Hin.
  - unfold field_line. eexists. rewrite !app_assoc. reflexivity.
  - intros Hr data Hg.
    pose proof (@missing_field_reported str_as_int str_as_float bool_as_int
                  bool_as_float cls data name Hin Hr Hg) as M.
    exists (errors_in cls data). split; [|exact M].
    apply new_profile_raises. intros N. rewrite N in M. destruct M.
  - intros Hr data errors e Hg H He Hf.
    pose proof (proj1 (@new_profile_raises str_as_int str_as_float bool_as_int
                         bool_as_float cls data) _ H) as E.
    injection E as ->.
    destruct (@validation_error_located str_as_int str_as_float bool_as_int
                bool_as_float cls data e He) as (k & _ & Hk & Habs).
    rewrite Hf in Hk. injection Hk as <-.
    destruct (Habs Hg) as [R _]. congruence.
Qed.

End PromptProperties.

(** The description of a company: its line is in the prompt, and data
    without it fail. *)
Lemma prompt_lines_agree_with_validation_witness :
  In (lit "description") (model_fields CompanyProfile)
  /\ occurs_in (field_line (fun _ _ => lit "str") CompanyProfile (lit "description"))
               (build_system_prompt (fun _ _ => lit "str") CompanyProfile).
Proof.
  assert (H : In (lit "description") (model_fields CompanyProfile))
    by (cbn; auto 10).
  split; [exact H|].
  exact (proj1 (@prompt_lines_agree_with_validation
                  (fun _ _ => lit "str")
                  (@no_int str) (@no_float str) (@no_int bool) (@no_float bool)
                  CompanyProfile (lit "description") H)).
Defined.

(* ------------------------------------------------------------------ *)
(** ** The response parser: what it returns and what it ignores *)

(** Case analysis on the tests of a decoder function in [H], closing the
    branches that return or raise at once. *)
Ltac decoder_ok_cases H :=
  repeat
    (match type of H with
     | Ok _ = Ok _ => injection H as <- <-; eauto
     | Raise _ = Ok _ => discriminate H
     | context [match ?x with _ => _ end] => destruct x eqn:?
     end).

Lemma object_pairs_returns_dict (doc : str) (fuel : nat) :
  forall s pairs v r,
    object_pairs fuel doc s pairs = Ok (v, r) -> exists d, v = JDict d.
Proof.
  induction fuel as [|fuel IH]; intros s pairs v r H; cbn [object_pairs] in H;
    unfold bind in H; decoder_ok_cases H; eauto.
Qed.

Lemma lstrip_with_suffix (f : N -> bool) (s : str) :
  exists pre, s = pre ++ lstrip_with f s.
Proof.
  induction s as [|c t [pre IH]]; [now exists []|]. cbn [lstrip_with].
  destruct (f c); [|now exists []].
  exists (c :: pre). cbn [app]. now rewrite <- IH.
Qed.

Lemma from_first_head (c : N) (s u : str) :
  from_first c s = Some u -> exists t, u = c :: t.
Proof.
  induction s as [|x t IH]; [discriminate|]. cbn [from_first].
  destruct (x =? c)%N eqn:E; [|exact IH].
  apply N.eqb_eq in E. subst x. intros H. injection H as <-. now exists t.
Qed.

Lemma upto_last_prefix (c : N) (s w : str) :
  upto_last c s = Some w -> w <> [] /\ exists post, s = w ++ post.
Proof.
  unfold upto_last.
  destruct (lstrip_with_suffix (fun x => negb (x =? c)%N) (rev s)) as [pre E].
  destruct (lstrip_with (fun x => negb (x =? c)%N) (rev s)) as [|y r];
    [discriminate|].
  intros H. injection H as <-. split.
  - cbn [rev]. intros N0. apply app_eq_nil in N0 as [_ N0]. discriminate.
  - exists (rev pre). rewrite <- (rev_involutive s), E, rev_app_distr.
    reflexivity.
Qed.

Lemma search_object_head (s span : str) :
  search_object s = Some span -> exists t, span = chr "{" :: t.
Proof.
  unfold search_object. destruct (from_first (chr "{") s) as [u|] eqn:F;
    [|discriminate].
  apply from_first_head in F as [t ->]. intros H.
  apply upto_last_prefix in H as [N0 [post E]].
  destruct span as [|x span']; [contradiction|].
  cbn [app] in E. injection E as <- _. now exists span'.
Qed.

(** Whenever the response parser returns, it returns a JSON object (a
    [dict]), as its annotation says. *)
Theorem extract_json_from_text_returns_dict :
  forall (raw : str) (v : json),
    extract_json_from_text raw = Ok v -> exists d, v = JDict d.
Proof.
  intros raw v. unfold extract_json_from_text.
  destruct (search_object (clean raw)) as [span|] eqn:S; [|discriminate].
  apply search_object_head in S as [t ->].
  unfold json_loads. change (startswith [65279%N] (chr "{" :: t)) with false.
  cbv iota. change (skip_ws (chr "{" :: t)) with (chr "{" :: t).
  cbn [scan_once]. change (chr "{" =? DQUOTE)%N with false.
  change (chr "{" =? chr "{")%N with true. cbv iota. unfold bind.
  intros H.
  destruct (skip_ws t) as [|q r] eqn:W; [discriminate|].
  destruct (q =? DQUOTE)%N.
  - destruct (object_pairs (length (chr "{" :: t)) (chr "{" :: t) r [])
      as [[v' r']|] eqn:O; [|discriminate].
    apply object_pairs_returns_dict in O as [d ->].
    destruct (skip_ws r'); [|discriminate]. injection H as <-. now exists d.
  - destruct (q =? chr "}")%N; [|discriminate].
    destruct (skip_ws r); [|discriminate]. injection H as <-. now exists [].
Qed.

(** A fenced empty object. *)
Lemma extract_json_from_text_returns_dict_witness :
  extract_json_from_text (fenced true (lit "{ }")) = Ok (JDict [])
  /\ exists d, JDict [] = JDict d.
Proof.
  split; [reflexivity|].
  exact (@extract_json_from_text_returns_dict
           (fenced true (lit "{ }")) (JDict []) eq_refl).
Defined.

Lemma lacks_rev (c : N) (s : str) : lacks c s = true -> lacks c (rev s) = true.
Proof.
  unfold lacks. rewrite !forallb_forall. intros H x Hx.
  apply H. now apply in_rev.
Qed.

Lemma lstrip_with_framed (f : N -> bool) (h : N) (rest P : str) :
  f h = false ->
  exists P', lstrip_with f (P ++ h :: rest) = P' ++ h :: rest
             /\ forall c, lacks c P = true -> lacks c P' = true.
Proof.
  intros Hh. induction P as [|x P [P' [E K]]].
  - exists []. cbn [app lstrip_with]. rewrite Hh. now split.
  - cbn [app lstrip_with]. destruct (f x).
    + exists P'. split; [exact E|]. intros c Hc. apply K.
      cbn [lacks forallb] in Hc. unfold lacks.
      now apply andb_true_iff in Hc as [_ Hc].
    + exists (x :: P). now split.
Qed.

Lemma rstrip_with_framed (f : N -> bool) (l : N) (front Q : str) :
  f l = false ->
  exists Q', rstrip_with f (front ++ l :: Q) = front ++ l :: Q'
             /\ forall c, lacks c Q = true -> lacks c Q' = true.
Proof.
  intros Hl. unfold rstrip_with.
  replace (rev (front ++ l :: Q)) with (rev Q ++ l :: rev front).
  2:{ rewrite rev_app_distr. cbn [rev]. now rewrite <- app_assoc. }
  destruct (@lstrip_with_framed f l (rev front) (rev Q) Hl) as [P' [E K]].
  rewrite E. exists (rev P'). split.
  - rewrite rev_app_distr. cbn [rev]. rewrite rev_involutive.
    now rewrite <- app_assoc.
  - intros c Hc. apply lacks_rev, K, lacks_rev, Hc.
Qed.

Lemma from_first_lacks (c : N) (P t : str) :
  lacks c P = true -> from_first c (P ++ c :: t) = Some (c :: t).
Proof.
  induction P as [|x P IH]; cbn [app from_first lacks forallb].
  - now rewrite N.eqb_refl.
  - intros H. apply andb_true_iff in H as [Hx HP].
    apply negb_true_iff in Hx. rewrite Hx. exact (IH HP).
Qed.

Lemma upto_last_lacks (c : N) (a Q : str) :
  lacks c Q = true -> upto_last c (a ++ c :: Q) = Some (a ++ [c]).
Proof.
  intros H. unfold upto_last.
  replace (rev (a ++ c :: Q)) with (rev Q ++ c :: rev a).
  2:{ rewrite rev_app_distr. cbn [rev]. now rewrite <- app_assoc. }
  rewrite lstrip_with_app. fold (lacks c (rev Q)). rewrite (lacks_rev _ _ H).
  cbn [lstrip_with]. rewrite N.eqb_refl. cbn [negb rev].
  now rewrite rev_involutive.
Qed.

Lemma strip_framed (body P Q : str) :
  exists P' Q',
    strip (P ++ chr "{" :: body ++ chr "}" :: Q)
    = P' ++ chr "{" :: body ++ chr "}" :: Q'
    /\ (forall c, lacks c P = true -> lacks c P' = true)
    /\ (forall c, lacks c Q = true -> lacks c Q' = true).
Proof.
  unfold strip.
  destruct (@lstrip_with_framed isspace (chr "{") (body ++ chr "}" :: Q) P
              eq_refl) as [P' [E K]].
  rewrite E.
  destruct (@rstrip_with_framed isspace (chr "}") (P' ++ chr "{" :: body) Q
              eq_refl) as [Q' [E' K']].
  exists P', Q'. split; [|now split].
  rewrite <- !app_assoc in E'. cbn [app] in E'. exact E'.
Qed.

(** The parser ignores prose around the object: when the reply holds no
    run of three backticks, nothing before the object holds an opening
    brace and nothing after it holds a closing brace, the parser returns
    (or raises) what [json.loads] does on the object's text alone. *)
Theorem extract_json_from_text_ignores_prose :
  forall (pre body post : str),
    contains FENCE (pre ++ chr "{" :: body ++ chr "}" :: post) = false ->
    lacks (chr "{") pre = true ->
    lacks (chr "}") post = true ->
    extract_json_from_text (pre ++ chr "{" :: body ++ chr "}" :: post)
    = json_loads (chr "{" :: body ++ [chr "}"]).
Proof.
  intros pre body post HF Hpre Hpost.
  unfold extract_json_from_text, clean.
  rewrite (re_sub_fences_none _ HF).
  destruct (strip_framed body pre post) as [P1 [Q1 [E1 [KP1 KQ1]]]].
  rewrite E1.
  destruct (@rstrip_with_framed is_backtick (chr "}") (P1 ++ chr "{" :: body) Q1
              eq_refl) as [Q2 [E2 KQ2]].
  rewrite <- !app_assoc in E2. cbn [app] in E2. rewrite E2.
  destruct (strip_framed body P1 Q2) as [P3 [Q3 [E3 [KP3 KQ3]]]].
  rewrite E3. cbv zeta. unfold search_object.
  rewrite from_first_lacks by (apply KP3, KP1, Hpre).
  change (chr "{" :: body ++ chr "}" :: Q3)
    with ((chr "{" :: body) ++ chr "}" :: Q3).
  rewrite upto_last_lacks by (apply KQ3, KQ2, KQ1, Hpost).
  reflexivity.
Qed.

(** A reply that introduces the object and comments on it afterwards. *)
Lemma extract_json_from_text_ignores_prose_witness :
  extract_json_from_text
    (lit "Here is the JSON: " ++ chr "{" :: jlit "'a': 1" ++ chr "}" :: lit " Done.")
  = Ok (JDict [(lit "a", JInt 1)]).
Proof.
  rewrite (@extract_json_from_text_ignores_prose
             (lit "Here is the JSON: ") (jlit "'a': 1") (lit " Done.")
             eq_refl eq_refl eq_refl).
  reflexivity.
Defined.

(* ------------------------------------------------------------------ *)
(** ** The extraction client: waits, and what leaves it *)

Lemma sleeps_app (a b : list event) : sleeps (a ++ b) = sleeps a ++ sleeps b.
Proof. unfold sleeps. apply flat_map_app. Qed.

Lemma sleeps_waited (attempt : nat) (evs : list event) :
  sleeps (waited_before attempt ++ evs)
  = (if 1 <? attempt then [attempt * 2] else []) ++ sleeps evs.
Proof. unfold waited_before. destruct (1 <? attempt); reflexivity. Qed.

(** Case analysis on the tests of a function in [H] that raises. *)
Ltac raise_cases H :=
  repeat
    (match type of H with
     | Raise _ = Raise _ => injection H as <-; auto
     | Ok _ = Raise _ => discriminate H
     | context [match ?x with _ => _ end] => destruct x eqn:?
     end).

Lemma getitem_raises (obj key : json) (e : exn) :
  getitem obj key = Raise e -> e = KeyError key \/ e = IndexError \/ e = TypeError.
Proof.
  intros H. unfold getitem in H. cbv zeta in H. raise_cases H.
Qed.

Lemma extract_json_from_text_raises (raw : str) (e : exn) :
  extract_json_from_text raw = Raise e ->
  e = ValueError NO_JSON_OBJECT (slice_to 200 raw)
  \/ e = RecursionError \/ exists why doc, e = JSONDecodeError why doc.
Proof.
  unfold extract_json_from_text. cbv zeta.
  destruct (search_object (clean raw)) as [span|].
  - intros H. apply json_loads_raises in H as [->|[why ->]]; eauto.
  - intros H. injection H as <-. now left.
Qed.

Section ClientFailures.

Variable str_as_int : str -> option Z.
Variable str_as_float : str -> option pyfloat.
Variable bool_as_int : bool -> option Z.
Variable bool_as_float : bool -> option pyfloat.

Local Abbreviation attempt_of :=
  (attempt_body str_as_int str_as_float bool_as_int bool_as_float).
Local Abbreviation loop :=
  (retry_loop str_as_int str_as_float bool_as_int bool_as_float).
Local Abbreviation client :=
  (extract_to_json str_as_int str_as_float bool_as_int bool_as_float).

Lemma construct_raises (cls : schema_class) (data : dict) (e : exn) :
  construct str_as_int str_as_float bool_as_int bool_as_float cls data = Raise e ->
  exists errors, e = ValidationError cls errors.
Proof.
  unfold construct. intros H.
  apply (proj1 (new_profile_raises str_as_int str_as_float bool_as_int
                  bool_as_float cls data)) in H.
  eauto.
Qed.

(** The failure of a caught attempt is followed by its log line, which
    is neither a request nor a wait. *)
Lemma retry_loop_caught_events (endpoint : nat -> post_result)
      (schema : schema_class) (attempt : nat) (later : list nat)
      (last : option exn) (e : exn) :
  attempt_of schema (endpoint attempt) = Raise e ->
  caught_by_retry e = true ->
  exists logged,
    loop endpoint schema (attempt :: later) last
    = (waited_before attempt ++ Post attempt :: logged
         :: fst (loop endpoint schema later (Some e)),
       snd (loop endpoint schema later (Some e)))
    /\ requests_made [logged] = 0 /\ sleeps [logged] = [].
Proof.
  intros H C. cbn [retry_loop]. rewrite H.
  unfold caught_by_retry in C.
  destruct (loop endpoint schema later (Some e)) as [evs r] eqn:L.
  destruct e; cbn in C; try discriminate; cbn [fst snd];
    eexists; (split; [reflexivity | split; reflexivity]).
Qed.

(** One wait of twice the attempt number before every request but the
    first kind of attempt, and a request in any non-empty range. *)
Lemma retry_loop_sleeps (endpoint : nat -> post_result) (schema : schema_class)
      (attempts : list nat) (last : option exn) :
  sleeps (fst (loop endpoint schema attempts last))
  = flat_map (fun a => if 1 <? a then [a * 2] else [])
      (firstn (requests_made (fst (loop endpoint schema attempts last))) attempts)
  /\ (attempts <> [] ->
      1 <= requests_made (fst (loop endpoint schema attempts last))).
Proof.
  revert last; induction attempts as [|a later IH]; intros last;
    [now split|].
  destruct (attempt_of schema (endpoint a)) as [p|e] eqn:A.
  - rewrite (@retry_loop_ok _ _ _ _ endpoint schema a later last p A). cbn [fst].
    rewrite requests_made_waited, sleeps_waited.
    change (requests_made [Post a]) with 1. cbn [firstn flat_map].
    split; [reflexivity | intros _; lia].
  - destruct (caught_by_retry e) eqn:C.
    + destruct (@retry_loop_caught_events endpoint schema a later last e A C)
        as (logged & -> & Hl & Hs).
      cbn [fst]. rewrite requests_made_waited, sleeps_waited.
      change (Post a :: logged :: ?x) with ([Post a] ++ [logged] ++ x).
      rewrite !requests_made_app, !sleeps_app, Hl, Hs.
      change (requests_made [Post a]) with 1. change (sleeps [Post a]) with (@nil nat).
      cbn [plus firstn flat_map app]. destruct (IH (Some e)) as [I1 _].
      rewrite I1. split; [reflexivity | intros _; lia].
    + rewrite (@retry_loop_uncaught _ _ _ _ endpoint schema a later last e A C).
      cbn [fst]. rewrite requests_made_waited, sleeps_waited.
      change (requests_made [Post a]) with 1. cbn [firstn flat_map].
      split; [reflexivity | intros _; lia].
Qed.

(** The backoff of the client: every call makes one, two or three
    requests; it does not wait before the first, waits 4 seconds before
    the second and 6 seconds before the third, so that a call sleeps 10
    seconds at most. *)
Theorem extract_to_json_backoff :
  forall (endpoint : nat -> post_result) (schema : schema_class),
    let evs := fst (client endpoint schema) in
    1 <= requests_made evs <= MAX_RETRIES + 1
    /\ sleeps evs = firstn (requests_made evs - 1) [4; 6]
    /\ list_sum (sleeps evs) <= 10.
Proof.
  intros endpoint schema evs. subst evs. unfold extract_to_json.
  change (seq 1 (MAX_RETRIES + 1)) with [1; 2; 3].
  destruct (@retry_loop_sleeps endpoint schema [1; 2; 3] None) as [S1 S2].
  pose proof (@retry_loop_budget str_as_int str_as_float bool_as_int
                bool_as_float endpoint schema [1; 2; 3] None) as B.
  specialize (S2 ltac:(discriminate)). cbn [length] in B.
  rewrite S1.
  set (n := requests_made _) in *.
  change (MAX_RETRIES + 1) with 3.
  destruct n as [|[|[|[|n]]]]; try lia;
    (split; [lia | split; [reflexivity | cbn; lia]]).
Qed.

(** What one attempt can raise, and on what reply. *)
Lemma attempt_body_raises (schema : schema_class) (r : post_result) (e : exn) :
  attempt_of schema r = Raise e ->
  match e with
  | RequestError n => r = PostFails n
  | HTTPStatusError c t => r = Response c t /\ is_success c = false
  | ValidationError cls _ =>
      cls = schema /\ exists c t, r = Response c t /\ is_success c = true
  | JSONDecodeError _ _ | KeyError _ | IndexError | TypeError | ValueError _ _
  | RecursionError => exists c t, r = Response c t /\ is_success c = true
  | RuntimeError _ _ | OSError _ | UnicodeDecodeError | SqliteError _ => False
  end.
Proof.
  destruct r as [n|c t]; cbn [attempt_body].
  - intros H. injection H as <-. reflexivity.
  - destruct (is_success c) eqn:S; cbn [negb].
    2:{ intros H. injection H as <-. now split. }
    assert (G : exists c' t', Response c t = Response c' t' /\ is_success c' = true)
      by (now exists c, t).
    unfold bind.
    destruct (json_loads t) as [data|e0] eqn:J.
    2:{ intros H. injection H as <-.
        apply json_loads_raises in J as [->|[why ->]]; exact G. }
    destruct (getitem data (JStr (lit "choices"))) as [choices|e0] eqn:G1.
    2:{ intros H. injection H as <-.
        apply getitem_raises in G1 as [->|[->| ->]]; exact G. }
    destruct (getitem choices (JInt 0)) as [choice|e0] eqn:G2.
    2:{ intros H. injection H as <-.
        apply getitem_raises in G2 as [->|[->| ->]]; exact G. }
    destruct (getitem choice (JStr (lit "message"))) as [message|e0] eqn:G3.
    2:{ intros H. injection H as <-.
        apply getitem_raises in G3 as [->|[->| ->]]; exact G. }
    destruct (getitem message (JStr (lit "content"))) as [content|e0] eqn:G4.
    2:{ intros H. injection H as <-.
        apply getitem_raises in G4 as [->|[->| ->]]; exact G. }
    assert (X : forall x e1,
               match content with
               | JStr raw => extract_json_from_text raw
               | _ => Raise TypeError
               end = x -> x = Raise e1 ->
               e1 = TypeError \/ e1 = RecursionError
               \/ (exists a b, e1 = ValueError a b)
               \/ (exists a b, e1 = JSONDecodeError a b)).
    { intros x e1 <- H.
      destruct content; try (injection H as <-; now left).
      apply extract_json_from_text_raises in H as [->|[->|[why [doc ->]]]]; eauto 6. }
    destruct (match content with
              | JStr raw => extract_json_from_text raw
              | _ => Raise TypeError
              end) as [extracted|e0] eqn:E.
    2:{ intros H. injection H as <-.
        destruct (X _ e0 eq_refl eq_refl) as [->|[->|[[a [b ->]]|[a [b ->]]]]];
          exact G. }
    destruct extracted; try (intros H; injection H as <-; exact G).
    intros H. apply construct_raises in H as [errors ->]. now split.
Qed.

(** An exception that leaves the loop is the [RuntimeError] after a range
    of caught failures, or the uncaught exception of an attempt. *)
Lemma retry_loop_raises (endpoint : nat -> post_result) (schema : schema_class)
      (attempts : list nat) (last : option exn) (exc : exn) :
  snd (loop endpoint schema attempts last) = Raise exc ->
  Forall (fun a => exists e, attempt_of schema (endpoint a) = Raise e
                             /\ caught_by_retry e = true) attempts
  \/ exists a, In a attempts /\ attempt_of schema (endpoint a) = Raise exc
               /\ caught_by_retry exc = false.
Proof.
  revert last; induction attempts as [|a later IH]; intros last;
    [now left|].
  destruct (attempt_of schema (endpoint a)) as [p|e] eqn:A.
  - rewrite (@retry_loop_ok _ _ _ _ endpoint schema a later last p A).
    discriminate.
  - destruct (caught_by_retry e) eqn:C.
    + destruct (@retry_loop_caught _ _ _ _ endpoint schema a later last e A C)
        as (logged & -> & _).
      cbn [snd]. intros H. destruct (IH _ H) as [F|(b & Hb & Ab & Cb)].
      * left. constructor; [now exists e | exact F].
      * right. exists b. split; [now right | now split].
    + rewrite (@retry_loop_uncaught _ _ _ _ endpoint schema a later last e A C).
      cbn [snd]. intros H. injection H as <-. right. exists a.
      split; [now left | now split].
Qed.

(** Only five kinds of exception leave the client.  A [RuntimeError]
    leaves it after exactly three requests and names the failure of the
    third attempt, one that the loop catches.  A transport error leaves it
    from the request that raised it.  [IndexError], [TypeError] and
    [RecursionError] leave it from an attempt whose reply was a 2xx
    response.  The failures that the loop catches (HTTP status, JSON
    decoding, [KeyError], [ValueError], validation) never leave it as
    they are, and nothing else does. *)
Theorem extract_to_json_exceptions :
  forall (endpoint : nat -> post_result) (schema : schema_class) (exc : exn),
    snd (client endpoint schema) = Raise exc ->
    match exc with
    | RuntimeError n last =>
        n = 3
        /\ requests_made (fst (client endpoint schema)) = 3
        /\ exists e, last = Some e
                     /\ attempt_of schema (endpoint 3) = Raise e
                     /\ caught_by_retry e = true
    | RequestError name =>
        exists a, 1 <= a <= 3 /\ endpoint a = PostFails name
    | IndexError | TypeError | RecursionError =>
        exists a code text,
          1 <= a <= 3 /\ endpoint a = Response code text
          /\ is_success code = true
    | _ => False
    end.
Proof.
  intros endpoint schema exc. unfold extract_to_json.
  change (seq 1 (MAX_RETRIES + 1)) with [1; 2; 3]. intros H.
  assert (R : forall a, In a [1; 2; 3] -> 1 <= a <= 3).
  { intros a [<-|[<-|[<-|[]]]]; lia. }
  destruct (retry_loop_raises _ _ _ _ H) as [F|(a & Ha & A & C)].
  - destruct (@retry_loop_exhausted _ _ _ _ endpoint schema [1; 2; 3] None F)
      as (final & R1 & R2 & R3).
    rewrite R1 in H. injection H as <-. cbn [rev app] in R3.
    destruct R3 as (e & -> & A3).
    split; [reflexivity|]. split; [exact R2|]. exists e.
    split; [reflexivity|]. split; [exact A3|].
    inversion F as [|? ? _ F']. inversion F' as [|? ? _ F''].
    inversion F'' as [|? ? (e' & A3' & C3) _]. subst.
    rewrite A3 in A3'. now injection A3' as <-.
  - apply attempt_body_raises in A. apply R in Ha.
    destruct exc; try discriminate C; try contradiction.
    + now exists a.
    + destruct A as (c & t & E & S). now exists a, c, t.
    + destruct A as (c & t & E & S). now exists a, c, t.
    + destruct A as (c & t & E & S). now exists a, c, t.
Qed.

(** A completion with an empty list of choices: the [IndexError] of
    [choices[0]] is not among the exceptions the loop catches, so it
    leaves the client after the first request, with no retry. *)
Theorem empty_choices_are_not_retried :
  forall (endpoint : nat -> post_result) (schema : schema_class)
         (code : Z) (text : str) (body : dict),
    endpoint 1 = Response code text ->
    is_success code = true ->
    json_loads text = Ok (JDict body) ->
    dict_get (lit "choices") body = Some (JList []) ->
    client endpoint schema = ([Post 1], Raise IndexError).
Proof.
  intros endpoint schema code text body E S J G. unfold extract_to_json.
  change (seq 1 (MAX_RETRIES + 1)) with [1; 2; 3].
  apply (@retry_loop_uncaught _ _ _ _ endpoint schema 1 [2; 3] None IndexError);
    [|reflexivity].
  rewrite E. cbn [attempt_body]. rewrite S. cbn [negb]. unfold bind.
  rewrite J. cbn [getitem]. rewrite G. reflexivity.
Qed.

End ClientFailures.

(** A 503 followed by a read timeout: the timeout leaves the client. *)
Lemma extract_to_json_exceptions_witness :
  snd (extract_to_json (@no_int str) (@no_float str) (@no_int bool)
         (@no_float bool) busy_then_timeout CompanyProfile)
  = Raise (RequestError (lit "ReadTimeout"))
  /\ exists a, 1 <= a <= 3 /\ busy_then_timeout a = PostFails (lit "ReadTimeout").
Proof.
  split; [reflexivity|].
  exact (@extract_to_json_exceptions (@no_int str) (@no_float str)
           (@no_int bool) (@no_float bool) busy_then_timeout CompanyProfile
           (RequestError (lit "ReadTimeout")) eq_refl).
Defined.

(** A 200 whose body has no choice in it. *)
Lemma empty_choices_are_not_retried_witness :
  extract_to_json (@no_int str) (@no_float str) (@no_int bool) (@no_float bool)
    (fun _ => Response 200 (jlit "{'choices': []}")) BuyerProfile
  = ([Post 1], Raise IndexError).
Proof.
  exact (@empty_choices_are_not_retried (@no_int str) (@no_float str)
           (@no_int bool) (@no_float bool)
           (fun _ => Response 200 (jlit "{'choices': []}")) BuyerProfile
           200%Z (jlit "{'choices': []}") [(lit "choices", JList [])]
           eq_refl eq_refl eq_refl eq_refl).
Defined.

(** A 503 answered by a retry that succeeds. *)
Lemma extract_to_json_retry_policy_witness :
  snd (extract_to_json (@no_int str) (@no_float str) (@no_int bool)
         (@no_float bool) busy_once CompanyProfile)
  = Ok (Company acme_profile)
  /\ requests_made
       (fst (extract_to_json (@no_int str) (@no_float str) (@no_int bool)
               (@no_float bool) busy_once CompanyProfile))
     = 2.
Proof.
  exact (proj1 (proj2 (@extract_to_json_retry_policy
                         (@no_int str) (@no_float str) (@no_int bool)
                         (@no_float bool) busy_once CompanyProfile))
           (HTTPStatusError 503 (lit "busy")) (Company acme_profile)
           eq_refl eq_refl eq_refl).
Defined.

(* ------------------------------------------------------------------ *)
(** ** The file processor, the batch and the run *)

Lemma has_status_ok_failure (filepath : path) (schema : schema_class) (exc : exn) :
  has_status_ok (failure_summary filepath schema exc) = false.
Proof.
  unfold has_status_ok, failure_summary, STATUS_FAILED, STATUS_OK.
  cbn [s_status app str_eqb]. reflexivity.
Qed.

Lemma counts_as_success_failure (filepath : path) (schema : schema_class)
      (exc : exn) :
  counts_as_success (failure_summary filepath schema exc)
  = contains (lit "OK") (exn_type_name exc).
Proof.
  unfold counts_as_success, failure_summary, STATUS_FAILED.
  cbn [s_status app contains]. reflexivity.
Qed.

Section ProcessorInvariants.

Variable unicode_lower : str -> nat -> str.
Variable str_as_int : str -> option Z.
Variable str_as_float : str -> option pyfloat.
Variable bool_as_int : bool -> option Z.
Variable bool_as_float : bool -> option pyfloat.

Local Abbreviation new :=
  (new_profile str_as_int str_as_float bool_as_int bool_as_float).
Local Abbreviation attempt_of :=
  (attempt_body str_as_int str_as_float bool_as_int bool_as_float).
Local Abbreviation loop :=
  (retry_loop str_as_int str_as_float bool_as_int bool_as_float).
Local Abbreviation client :=
  (extract_to_json str_as_int str_as_float bool_as_int bool_as_float).
Local Abbreviation process :=
  (process_file str_as_int str_as_float bool_as_int bool_as_float).
Local Abbreviation batch :=
  (process_all unicode_lower str_as_int str_as_float bool_as_int bool_as_float).
Local Abbreviation run :=
  (main unicode_lower str_as_int str_as_float bool_as_int bool_as_float).
Local Abbreviation consistent :=
  (row_consistent str_as_int str_as_float bool_as_int bool_as_float).

Lemma attempt_body_ok_inv (schema : schema_class) (r : post_result) (p : profile) :
  attempt_of schema r = Ok p -> exists d, new schema d = Ok p.
Proof.
  destruct r as [n|c t]; cbn [attempt_body]; [discriminate|].
  destruct (negb (is_success c)); [discriminate|]. unfold bind, construct.
  intros H.
  repeat
    (match type of H with
     | Raise _ = Ok _ => discriminate H
     | context [match ?x with _ => _ end] => destruct x eqn:?
     end).
  eauto.
Qed.

(** A profile that the client returns is of the class asked for, its
    confidence lies in the unit interval, and its dump validates to it. *)
Lemma client_profile (endpoint : nat -> post_result) (schema : schema_class)
      (p : profile) :
  snd (client endpoint schema) = Ok p ->
  profile_class p = schema
  /\ new (profile_class p) (model_dump p) = Ok p
  /\ inside_unit_interval (profile_confidence_score p).
Proof.
  intros H. apply retry_loop_returns_an_attempt in H as (a & _ & A).
  apply attempt_body_ok_inv in A as [d A].
  pose proof (@new_profile_class str_as_int str_as_float bool_as_int
                bool_as_float schema d p A) as C.
  destruct (@new_profile_confidence str_as_int str_as_float bool_as_int
              bool_as_float schema d p A) as (c & v & _ & _ & B & E).
  apply in_unit_interval_spec in B.
  pose proof (proj2 (@round4_rounds v B)) as I. rewrite <- E in I.
  split; [exact C|]. split; [|exact I].
  apply new_profile_model_dump; [exact I|].
  rewrite E. apply round4_idempotent.
Qed.

(** The type name of an exception that leaves the client. *)
Lemma client_failure_name (endpoint : nat -> post_result) (schema : schema_class)
      (exc : exn) :
  snd (client endpoint schema) = Raise exc ->
  (forall a n, endpoint a = PostFails n -> contains (lit "OK") n = false) ->
  contains (lit "OK") (exn_type_name exc) = false.
Proof.
  unfold extract_to_json. intros H N.
  destruct (@retry_loop_raises _ _ _ _ _ _ _ _ _ H) as [F|(a & _ & A & C)].
  - destruct (@retry_loop_exhausted _ _ _ _ endpoint schema _ None F)
      as (final & R1 & _).
    rewrite R1 in H. injection H as <-. reflexivity.
  - apply attempt_body_raises in A.
    destruct exc; try discriminate C; try contradiction; try reflexivity.
    cbn [exn_type_name]. exact (N a _ A).
Qed.

(** One file: at most three requests; the exception of the read leaves
    with the table as it was; otherwise the summary bears the file's name
    and either reports success, with one consistent row appended, or a
    failure, with the table as it was. *)
Lemma process_file_step (env : file_env) (filepath : path)
      (schema : schema_class) (db : list row) :
  requests_made (fst (fst (process env filepath schema db))) <= 3
  /\ match snd (process env filepath schema db) with
     | Raise e =>
         read_text env = Raise e
         /\ snd (fst (process env filepath schema db)) = db
     | Ok s =>
         (exists raw, read_text env = Ok raw)
         /\ s_file s = path_name filepath
         /\ ((has_status_ok s = true /\ counts_as_success s = true
              /\ exists r, snd (fst (process env filepath schema db)) = db ++ [r]
                           /\ consistent r)
             \/ (has_status_ok s = false
                 /\ snd (fst (process env filepath schema db)) = db
                 /\ (names_lack_OK env -> counts_as_success s = false)))
     end.
Proof.
  pose proof (@retry_loop_budget str_as_int str_as_float bool_as_int
                bool_as_float (endpoint env) schema
                (seq 1 (MAX_RETRIES + 1)) None) as B.
  change (loop (endpoint env) schema (seq 1 (MAX_RETRIES + 1)) None)
    with (client (endpoint env) schema) in B.
  change (length (seq 1 (MAX_RETRIES + 1))) with 3 in B.
  pose proof (@client_profile (endpoint env) schema) as P.
  pose proof (@client_failure_name (endpoint env) schema) as F.
  unfold process_file.
  destruct (read_text env) as [raw|e] eqn:R; [|cbn; split; [lia | now split]].
  destruct (client (endpoint env) schema) as [evs [p|exc]];
    cbn [fst snd] in B, P, F.
  - destruct (P p eq_refl) as (P1 & P2 & P3).
    unfold store_result. destruct (insert_error env) as [e|] eqn:I;
      cbn [fst snd].
    + split.
      { rewrite !requests_made_app. cbn [requests_made filter length]. lia. }
      split; [now exists raw|]. split; [reflexivity|]. right.
      split; [apply has_status_ok_failure|]. split; [reflexivity|].
      intros [_ N]. rewrite counts_as_success_failure. now apply N.
    + split.
      { rewrite !requests_made_app. cbn [requests_made filter length]. lia. }
      split; [now exists raw|]. split; [reflexivity|]. left.
      split; [reflexivity|]. split; [reflexivity|].
      eexists. split; [reflexivity|]. exists p.
      cbn [schema_type extracted_json company_name industry confidence_score
           model_version].
      repeat split; try reflexivity; assumption.
  - cbn [fst snd]. split.
    { rewrite !requests_made_app. cbn [requests_made filter length]. lia. }
    split; [now exists raw|]. split; [reflexivity|]. right.
    split; [apply has_status_ok_failure|]. split; [reflexivity|].
    intros [N _]. rewrite counts_as_success_failure. now apply F.
Qed.

(** The loop over the files: rows are only appended, each of them
    consistent; an exception that ends the loop is the exception of a
    read; otherwise there is one summary per file, in order, and as many
    success summaries as rows appended. *)
Lemma process_all_step (files : list (path * file_env)) :
  forall (db : list row) (results : list summary),
  exists added,
    snd (fst (batch files db results)) = db ++ added
    /\ Forall consistent added
    /\ requests_made (fst (fst (batch files db results))) <= 3 * length files
    /\ match snd (batch files db results) with
       | Raise e =>
           exists before f after,
             files = before ++ f :: after /\ read_text (snd f) = Raise e
       | Ok rs =>
           exists new,
             rs = results ++ new
             /\ map s_file new = map (fun f => path_name (fst f)) files
             /\ Forall (fun f => exists raw, read_text (snd f) = Ok raw) files
             /\ length (filter has_status_ok new) = length added
             /\ (Forall (fun f => names_lack_OK (snd f)) files ->
                 length (filter counts_as_success new) = length added)
       end.
Proof.
  induction files as [|[filepath env] rest IH]; intros db results.
  - exists []. cbn [process_all fst snd]. rewrite app_nil_r.
    split; [reflexivity|]. split; [constructor|]. split; [cbn; lia|].
    exists []. rewrite app_nil_r. repeat split; constructor.
  - cbn [process_all].
    destruct (process_file_step env filepath
                (infer_schema unicode_lower (path_name filepath)) db) as [S1 S2].
    destruct (process env filepath
                (infer_schema unicode_lower (path_name filepath)) db)
      as [[evs1 db1] [s|e]]; cbn [fst snd] in S1, S2.
    + destruct S2 as (Hr & Hf & S2).
      destruct (IH db1 (results ++ [s])) as (added & I1 & I2 & I3 & I4).
      destruct (batch rest db1 (results ++ [s])) as [[evs2 db2] r2];
        cbn [fst snd] in I1, I3, I4 |- *.
      assert (Q : requests_made (evs1 ++ evs2) <= 3 * length ((filepath, env) :: rest)).
      { rewrite requests_made_app. cbn [length]. lia. }
      destruct S2 as [(H1 & H2 & r & -> & Hc) | (H1 & -> & H2)].
      * exists (r :: added). split; [now rewrite I1, <- app_assoc|].
        split; [now constructor|]. split; [exact Q|].
        destruct r2 as [rs|e].
        -- destruct I4 as (new & -> & M & Rd & C1 & C2). exists (s :: new).
           split; [now rewrite <- app_assoc|].
           split; [cbn [map fst]; now rewrite Hf, M|].
           split; [constructor; [exact Hr | exact Rd]|].
           split.
           ++ cbn [filter]. rewrite H1. cbn [length]. now rewrite C1.
           ++ intros N. inversion N as [|? ? _ N']. subst.
              cbn [filter]. rewrite H2. cbn [length]. now rewrite (C2 N').
        -- destruct I4 as (before & f & after & -> & Re).
           now exists ((filepath, env) :: before), f, after.
      * exists added. split; [exact I1|]. split; [exact I2|]. split; [exact Q|].
        destruct r2 as [rs|e].
        -- destruct I4 as (new & -> & M & Rd & C1 & C2). exists (s :: new).
           split; [now rewrite <- app_assoc|].
           split; [cbn [map fst]; now rewrite Hf, M|].
           split; [constructor; [exact Hr | exact Rd]|].
           split.
           ++ cbn [filter]. rewrite H1. exact C1.
           ++ intros N. inversion N as [|? ? N0 N']. subst.
              cbn [filter]. rewrite (H2 N0). exact (C2 N').
        -- destruct I4 as (before & f & after & -> & Re).
           now exists ((filepath, env) :: before), f, after.
    + destruct S2 as [Re ->]. exists []. rewrite app_nil_r. cbn [fst snd].
      split; [reflexivity|]. split; [constructor|].
      split; [cbn [length]; lia|].
      now exists [], (filepath, env), rest.
Qed.

(** What [process_file] does with a file it could read: it makes at most
    three requests and returns a summary that bears the file's name and
    the schema's name.  The summary reports success with the name and the
    confidence of the profile extracted, and then exactly one row is
    appended, which records the path, the schema, the dump of the profile
    and the time, and from which the profile is retrieved; or it is the
    failure summary of an exception, and then the table is as it was. *)
Theorem process_file_outcome :
  forall (env : file_env) (filepath : path) (schema : schema_class)
         (db : list row) (raw_text : str),
    read_text env = Ok raw_text ->
    exists evs db' s,
      process env filepath schema db = (evs, db', Ok s)
      /\ requests_made evs <= MAX_RETRIES + 1
      /\ s_file s = path_name filepath
      /\ s_schema s = schema_name schema
      /\ ((exists p r,
              snd (client (endpoint env) schema) = Ok p
              /\ s_status s = STATUS_OK
              /\ s_company s = profile_company_name p
              /\ s_confidence s = profile_confidence_score p
              /\ db' = db ++ [r]
              /\ source_file r = path_str filepath
              /\ schema_type r = schema_name schema
              /\ extracted_json r = model_dump p
              /\ extracted_at r = utc_now env
              /\ consistent r)
          \/ (exists exc, s = failure_summary filepath schema exc /\ db' = db)).
Proof.
  intros env filepath schema db raw_text R.
  pose proof (@retry_loop_budget str_as_int str_as_float bool_as_int
                bool_as_float (endpoint env) schema
                (seq 1 (MAX_RETRIES + 1)) None) as B.
  change (loop (endpoint env) schema (seq 1 (MAX_RETRIES + 1)) None)
    with (client (endpoint env) schema) in B.
  change (length (seq 1 (MAX_RETRIES + 1))) with (MAX_RETRIES + 1) in B.
  pose proof (@client_profile (endpoint env) schema) as P.
  unfold process_file. rewrite R.
  destruct (client (endpoint env) schema) as [evs [p|exc]];
    cbn [fst snd] in B, P.
  - destruct (P p eq_refl) as (P1 & P2 & P3).
    unfold store_result. destruct (insert_error env) as [e|] eqn:I.
    + do 3 eexists. split; [reflexivity|]. split.
      { rewrite !requests_made_app. cbn [requests_made filter length] in *. lia. }
      split; [reflexivity|]. split; [reflexivity|]. right. now exists e.
    + do 3 eexists. split; [reflexivity|]. split.
      { rewrite !requests_made_app. cbn [requests_made filter length] in *. lia. }
      split; [reflexivity|]. split; [reflexivity|]. left.
      exists p. eexists. split; [reflexivity|].
      cbn [s_status s_company s_confidence].
      do 4 (split; [reflexivity|]).
      cbn [source_file schema_type extracted_json extracted_at].
      split; [reflexivity|]. split; [now rewrite P1|].
      split; [reflexivity|]. split; [reflexivity|].
      exists p.
      cbn [schema_type extracted_json company_name industry confidence_score
           model_version].
      repeat split; try reflexivity; assumption.
  - do 3 eexists. split; [reflexivity|]. split.
    { rewrite !requests_made_app. cbn [requests_made filter length] in *. lia. }
    split; [reflexivity|]. split; [reflexivity|]. right. now exists exc.
Qed.

(** How a run of [main] ends.  It exits with code 1 only when
    [load_config] raises an [OSError], and then nothing is logged and the
    database is untouched; with code 0 only when there is no text file,
    the table then being there.  An exception escapes it only from
    [load_dotenv], from [init_db] or from the read of a file: no failure
    of the endpoint, of the parser, of validation or of storage ends a
    run.  It completes only when every file could be read, with one
    summary per file, in order.  And a token that is unset or empty exits
    with code 1 before anything else is done. *)
Theorem main_ends :
  forall (env : run_env) (db : option (list row)),
    let '(evs, db', outcome) := run env db in
    match outcome with
    | SystemExit code =>
        evs = []
        /\ ((code = 1%Z /\ db' = db
             /\ exists e, load_config env = Raise e /\ is_OSError e = true)
            \/ (code = 0%Z /\ txt_files env = []
                /\ exists table, init_db env db = Ok table /\ db' = Some table))
    | Escapes e =>
        (dotenv_error env = Some e /\ is_OSError e = false /\ db' = db)
        \/ (init_error env = Some e /\ db' = db)
        \/ (exists before f after,
               txt_files env = before ++ f :: after
               /\ read_text (snd f) = Raise e)
    | Completes results success =>
        txt_files env <> []
        /\ Forall (fun f => exists raw, read_text (snd f) = Ok raw) (txt_files env)
        /\ map s_file results = map (fun f => path_name (fst f)) (txt_files env)
    end
    /\ (dotenv_error env = None ->
        token env = None \/ token env = Some [] ->
        (evs, db', outcome) = ([], db, SystemExit 1)).
Proof.
  intros env db. unfold main.
  destruct (load_config env) as [config|e] eqn:L.
  - assert (T : dotenv_error env = None ->
                token env = None \/ token env = Some [] -> False).
    { unfold load_config in L. intros D [T|T]; rewrite D, T in L; discriminate. }
    destruct (init_db env db) as [table|e] eqn:I.
    + destruct (txt_files env) as [|f rest] eqn:F.
      * split; [|intros D N; destruct (T D N)].
        split; [reflexivity|]. right. split; [reflexivity|].
        split; [reflexivity|]. now exists table.
      * destruct (process_all_step (f :: rest) table [])
          as (added & S1 & S2 & S3 & S4).
        destruct (batch (f :: rest) table []) as [[evs table'] [rs|e]];
          cbn [fst snd] in S1, S3, S4;
          (split; [|intros D N; destruct (T D N)]).
        -- destruct S4 as (new & -> & M & Rd & _). cbn [app].
           split; [discriminate|]. now split.
        -- right. right. exact S4.
    + split; [|intros D N; destruct (T D N)].
      right. left. split; [|reflexivity].
      unfold init_db in I. destruct (init_error env); [|discriminate].
      now injection I as <-.
  - assert (T : dotenv_error env = None ->
                token env = None \/ token env = Some [] ->
                e = OSError (lit "OSError")).
    { unfold load_config in L. intros D [T|T]; rewrite D, T in L;
        now injection L as <-. }
    destruct (is_OSError e) eqn:O.
    + split; [|reflexivity]. split; [reflexivity|]. left.
      split; [reflexivity|]. split; [reflexivity|]. now exists e.
    + split.
      * left. split; [|now split]. unfold load_config in L.
        destruct (dotenv_error env) as [e'|]; [now injection L as <-|].
        destruct (token env) as [[|c t]|]; try discriminate;
          injection L as <-; discriminate.
      * intros D N. rewrite (T D N) in O. discriminate.
Qed.

(** The total line of [main].  When a run completes, and no class name
    supplied for a transport or storage error holds the letters OK, the
    count of successful extractions it prints is the number of rows the
    run appended to the table that [init_db] left; each of these rows is
    consistent; there is one summary per file, and at most three requests
    per file were made. *)
Theorem main_total :
  forall (env : run_env) (db : option (list row)) (results : list summary)
         (success : nat),
    snd (run env db) = Completes results success ->
    Forall (fun f => names_lack_OK (snd f)) (txt_files env) ->
    exists table added,
      init_db env db = Ok table
      /\ snd (fst (run env db)) = Some (table ++ added)
      /\ success = length added
      /\ Forall consistent added
      /\ length results = length (txt_files env)
      /\ requests_made (fst (fst (run env db))) <= 3 * length (txt_files env).
Proof.
  intros env db results success. unfold main.
  destruct (load_config env) as [config|e].
  2:{ destruct (is_OSError e); discriminate. }
  destruct (init_db env db) as [table|e]; [|discriminate].
  destruct (txt_files env) as [|f rest]; [discriminate|].
  destruct (process_all_step (f :: rest) table [])
    as (added & S1 & S2 & S3 & S4).
  destruct (batch (f :: rest) table []) as [[evs table'] [rs|e]];
    cbn [fst snd] in S1, S3, S4 |- *; [|discriminate].
  intros H N. injection H as <- <-.
  destruct S4 as (new & -> & M & _ & _ & C). cbn [app] in *.
  exists table, added. split; [reflexivity|]. split; [now rewrite S1|].
  split; [exact (C N)|]. split; [exact S2|]. split; [|exact S3].
  rewrite <- (length_map s_file), M. apply length_map.
Qed.

End ProcessorInvariants.

(** The Acme file, read and stored. *)
Lemma process_file_outcome_witness :
  exists evs db' s,
    process_file (@no_int str) (@no_float str) (@no_int bool) (@no_float bool)
      acme_all_well acme_path CompanyProfile [] = (evs, db', Ok s)
    /\ s_file s = lit "acme_company.txt".
Proof.
  destruct (@process_file_outcome (@no_int str) (@no_float str) (@no_int bool)
              (@no_float bool) acme_all_well acme_path CompanyProfile [] _
              eq_refl) as (evs & db' & s & H & _ & F & _).
  now exists evs, db', s.
Defined.

(** Two files, of which the second cannot be stored: one success of two. *)
Lemma main_total_witness :
  snd (main keep_case (@no_int str) (@no_float str) (@no_int bool)
         (@no_float bool) two_files_run None)
  = Completes
      [ {| s_file := lit "acme_company.txt";
           s_company := lit "Acme Corp";
           s_schema := lit "CompanyProfile";
           s_confidence := FFin (Qmake 23 25);
           s_status := STATUS_OK |};
        failure_summary report_path CompanyProfile
          (SqliteError (lit "OperationalError")) ] 1
  /\ exists table added,
       init_db two_files_run None = Ok table
       /\ snd (fst (main keep_case (@no_int str) (@no_float str) (@no_int bool)
                      (@no_float bool) two_files_run None))
          = Some (table ++ added)
       /\ 1 = length added
       /\ Forall (row_consistent (@no_int str) (@no_float str) (@no_int bool)
                    (@no_float bool)) added
       /\ 2 = length (txt_files two_files_run)
       /\ requests_made
            (fst (fst (main keep_case (@no_int str) (@no_float str)
                         (@no_int bool) (@no_float bool) two_files_run None)))
          <= 3 * length (txt_files two_files_run).
Proof.
  split; [reflexivity|].
  refine (@main_total keep_case (@no_int str) (@no_float str) (@no_int bool)
            (@no_float bool) two_files_run None _ 1 eq_refl _).
  repeat constructor; cbn [snd acme_all_well acme_store_down endpoint insert_error];
    intros; try discriminate.
  match goal with H : Some _ = Some _ |- _ => injection H as <- end.
  reflexivity.
Defined.
